(** * asgiref.wsgi: the WSGI-to-ASGI adapter

    A shallow embedding of [src/asgiref/wsgi.py] (classes [WsgiToAsgi] and
    [WsgiToAsgiInstance]) and the properties of its environ builder, its
    [start_response] callable and its response loop.

    Python values are modelled as follows.
    - [str]: a list of Unicode code points ([N]);
    - [bytes]: a list of [Byte.byte];
    - [int]: [Z];
    - a [dict] used as a map: a [gmap];
    - a raised exception: the [Raise] case of [result]. *)

From Stdlib Require Import ZArith NArith.
From Stdlib Require Import Strings.Ascii Strings.String Strings.Byte DecimalString.
From stdpp Require Import base option list gmap strings relations.

Local Open Scope N_scope.

(** ** Python built-ins used by the adapter *)

Module Py.

Definition codepoint := N.
Definition str := list codepoint.
Definition bytes := list byte.

(** A [str] literal, written as a Rocq string of ASCII characters. *)
Definition u (s : string) : str := N_of_ascii <$> list_ascii_of_string s.

(** A [bytes] literal, [b"..."]. *)
Definition b (s : string) : bytes := byte_of_ascii <$> list_ascii_of_string s.

#[global] Instance byte_eq_dec : EqDecision byte := Byte.byte_eq_dec.

Arguments u : simpl never.
Arguments b : simpl never.

(** [bytes.decode("latin1")]: every byte is the code point of the same
    number; it never fails. *)
Definition decode_latin1 (bs : bytes) : str := Byte.to_N <$> bs.

(** [bytes.decode("ascii")]: [None] stands for [UnicodeDecodeError], raised
    when a byte is 0x80 or above. *)
Definition decode_ascii (bs : bytes) : option str :=
  if forallb (λ c, Byte.to_N c <? 128) bs then Some (Byte.to_N <$> bs) else None.

(** [str.encode("ascii")]: [None] stands for [UnicodeEncodeError]. *)
Definition encode_ascii (s : str) : option bytes :=
  mapM (λ c, if c <? 128 then Byte.of_N c else None) s.

(** [str.upper()] on text decoded from latin-1, one code point at a time:
    a-z and the accented lowercase letters move down by 0x20, the micro sign
    becomes GREEK CAPITAL LETTER MU, sharp s becomes "SS" and y with
    diaeresis becomes U+0178; the adapter only uppercases such text. *)
Definition upper_cp (c : codepoint) : list codepoint :=
  if (97 <=? c) && (c <=? 122) then [c - 32]
  else if c =? 181 then [924]
  else if c =? 223 then [83; 83]
  else if (224 <=? c) && (c <=? 254) && negb (c =? 247) then [c - 32]
  else if c =? 255 then [376]
  else [c].

Definition upper (s : str) : str := s ≫= upper_cp.

(** [str.replace(old, new)] for one-character [old] and [new]. *)
Definition replace (old new : codepoint) (s : str) : str :=
  (λ c, if c =? old then new else c) <$> s.

(** [name.lower().encode("ascii")]. [str.lower()] maps A-Z to a-z, keeps
    every other ASCII code point, maps KELVIN SIGN (U+212A) to "k", and maps
    every other non-ASCII code point to text that still holds a non-ASCII
    code point, which the ASCII codec rejects. *)
Definition lower_encode_ascii (name : str) : option bytes :=
  mapM (λ c,
          if (65 <=? c) && (c <=? 90) then Byte.of_N (c + 32)
          else if c <? 128 then Byte.of_N c
          else if c =? 8490 then Byte.of_N 107
          else None) name.

(** [status.split(" ", 1)] when the separator occurs: the text before the
    first space and the text after it. [None] when there is no space, in
    which case Python returns the one-element list [[status]]. *)
Fixpoint split_space (s : str) : option (str * str) :=
  match s with
  | [] => None
  | c :: rest =>
      if c =? 32 then Some ([], rest)
      else '(before, after) ← split_space rest; Some (c :: before, after)
  end.

(** *** [int(text)] in base 10 *)

(** First code points of the runs of ten decimal digits (general category
    Nd) of Unicode 14.0, the table of CPython 3.11. *)
Definition decimal_zeros : list codepoint :=
  [ 0x30; 0x660; 0x6f0; 0x7c0; 0x966; 0x9e6; 0xa66; 0xae6; 0xb66; 0xbe6;
    0xc66; 0xce6; 0xd66; 0xde6; 0xe50; 0xed0; 0xf20; 0x1040; 0x1090;
    0x17e0; 0x1810; 0x1946; 0x19d0; 0x1a80; 0x1a90; 0x1b50; 0x1bb0;
    0x1c40; 0x1c50; 0xa620; 0xa8d0; 0xa900; 0xa9d0; 0xa9f0; 0xaa50;
    0xabf0; 0xff10; 0x104a0; 0x10d30; 0x11066; 0x110f0; 0x11136; 0x111d0;
    0x112f0; 0x11450; 0x114d0; 0x11650; 0x116c0; 0x11730; 0x118e0;
    0x11950; 0x11c50; 0x11d50; 0x11da0; 0x16a60; 0x16ac0; 0x16b50;
    0x1d7ce; 0x1d7d8; 0x1d7e2; 0x1d7ec; 0x1d7f6; 0x1e140; 0x1e2f0;
    0x1e950; 0x1fbf0 ].

(** The decimal value of a code point, if it is a decimal digit. *)
Definition to_decimal (c : codepoint) : option N :=
  (λ z, c - z) <$> List.find (λ z, (z <=? c) && (c <? z + 10)) decimal_zeros.

(** White space outside ASCII. *)
Definition unicode_space (c : codepoint) : bool :=
  bool_decide (c ∈ [0x85; 0xa0; 0x1680; 0x2028; 0x2029; 0x202f; 0x205f; 0x3000])
  || (0x2000 <=? c) && (c <=? 0x200a).

(** The ASCII white space that the integer parser skips. *)
Definition ascii_space (c : codepoint) : bool :=
  (9 <=? c) && (c <=? 13) || (c =? 32).

(** Before parsing, every non-ASCII space becomes " ", every non-ASCII
    decimal digit becomes its ASCII digit and any other non-ASCII code point
    becomes "?". *)
Definition to_ascii_digit (c : codepoint) : codepoint :=
  if c <? 128 then c
  else if unicode_space c then 32
  else match to_decimal c with Some d => 48 + d | None => 63 end.

Definition is_digit (c : codepoint) : bool := (48 <=? c) && (c <=? 57).

(** The digits of the literal: single underscores may separate digits, and
    the literal must not end with one. Returns the value read and the text
    left. [after_underscore] tells that the previous character was "_". *)
Fixpoint scan_digits (acc : Z) (after_underscore : bool) (s : str)
  : option (Z * str) :=
  match s with
  | c :: rest =>
      if is_digit c then scan_digits (10 * acc + Z.of_N (c - 48)) false rest
      else if c =? 95 then
        if after_underscore then None else scan_digits acc true rest
      else if after_underscore then None else Some (acc, s)
  | [] => if after_underscore then None else Some (acc, [])
  end.

(** An optionally signed literal: it must start with a digit. *)
Definition scan_signed (s : str) : option (Z * str) :=
  let '(sign, body) :=
    match s with
    | 43 :: rest => (1%Z, rest)
    | 45 :: rest => ((-1)%Z, rest)
    | _ => (1%Z, s)
    end in
  match body with
  | c :: _ =>
      if is_digit c then
        '(n, rest) ← scan_digits 0 false body; Some ((sign * n)%Z, rest)
      else None
  | [] => None
  end.

(** Skips the leading white space. *)
Fixpoint skip_spaces (s : str) : str :=
  match s with
  | c :: rest => if ascii_space c then skip_spaces rest else s
  | [] => []
  end.

(** [int(text)]: [None] stands for [ValueError]. *)
Definition int (text : str) : option Z :=
  let s := skip_spaces (to_ascii_digit <$> text) in
  '(n, rest) ← scan_signed s;
  if forallb ascii_space rest then Some n else None.

(** [str(n)] for an [int]. *)
Definition str_of_int (n : Z) : str :=
  u (NilZero.string_of_int (Z.to_int n)).

(** [str(port)] where [port] is an [int] or [None]. *)
Definition str_of_port (port : option Z) : str :=
  match port with Some n => str_of_int n | None => u "None" end.

End Py.

Import Py.

(** ** Exceptions *)

(** A traceback, as a list of frame numbers. *)
Definition traceback := list N.

(** An exception object created by the application: its identity, its class
    and its [__traceback__] attribute. *)
Record exc_object := {
  exc_ident : N;
  exc_class : string;
  exc_traceback : traceback;
}.

(** [e.with_traceback(tb)] stores [tb] in the object and returns the same
    object. *)
Definition with_traceback (e : exc_object) (tb : traceback) : exc_object :=
  {| exc_ident := exc_ident e; exc_class := exc_class e; exc_traceback := tb |}.

(** The [exc_info] argument of [start_response]: a [sys.exc_info()] triple. *)
Record exc_info := {
  exc_type : string;
  exc_value : exc_object;
  exc_tb : traceback;
}.

(** The triple that [sys.exc_info()] returns while [e] is handled. *)
Definition sys_exc_info (e : exc_object) : exc_info :=
  {| exc_type := exc_class e; exc_value := e; exc_tb := exc_traceback e |}.

Inductive exception :=
| ValueError (message : string)
| TypeError (message : string)
| AttributeError (message : string)
| UnicodeDecodeError
| UnicodeEncodeError
| Raised (obj : exc_object).

(** The outcome of a call: a value, or a raised exception. *)
Inductive result (A : Type) :=
| Ok (a : A)
| Raise (e : exception).
Arguments Ok {A} a.
Arguments Raise {A} e.

#[global] Instance result_ret : MRet result := λ A a, Ok a.
#[global] Instance result_bind : MBind result := λ A B f m,
  match m with Ok a => f a | Raise e => Raise e end.

(** [x] if the option holds one, else raise [e]. *)
Definition or_raise {A} (e : exception) (o : option A) : result A :=
  match o with Some a => Ok a | None => Raise e end.

(** ** Connection scope, messages and environ *)

(** The ASGI connection scope of an HTTP connection. The keys read with
    [scope[...]] are fields; the keys read with [get] or tested with [in] are
    optional. *)
Record scope := {
  scope_type : str;
  method : str;
  path : str;
  query_string : bytes;
  http_version : str;
  scheme : option str;
  server : option (str * option Z);
  client : option (str * Z);
  headers : option (list (bytes * bytes));
}.

(** An inbound message: its ["type"] and its optional ["body"]. *)
Record message := {
  message_type : str;
  message_body : option bytes;
}.

(** The values stored in the environ. *)
Inductive env_value :=
| VStr (s : str)                 (* a str *)
| VVersion (major minor : Z)     (* the tuple (1, 0) *)
| VBytesIO (content : bytes)     (* a BytesIO *)
| VBool (flag : bool).

Abbreviation environ := (gmap str env_value).

(** The environ key of a header name (lines 76-82). The name is compared as
    it arrives with "content-length" and "content-type". *)
Definition corrected_name (name : bytes) : str :=
  let name := decode_latin1 name in
  if decide (name = u "content-length") then u "CONTENT_LENGTH"
  else if decide (name = u "content-type") then u "CONTENT_TYPE"
  else u "HTTP_" ++ replace 45 95 (upper name).

(** The loop over the headers (lines 75-87). [environ[corrected_name] + ","]
    raises [TypeError] when the stored value is not a str. *)
Fixpoint fold_headers (env : environ) (hs : list (bytes * bytes))
  : result environ :=
  match hs with
  | [] => Ok env
  | (name, value) :: rest =>
      let corrected := corrected_name name in
      let value := decode_latin1 value in
      match env !! corrected with
      | None => fold_headers (<[corrected := VStr value]> env) rest
      | Some (VStr old) =>
          fold_headers (<[corrected := VStr (old ++ u "," ++ value)]> env) rest
      | Some _ => Raise (TypeError "unsupported operand type(s) for +")
      end
  end.

(** The dict literal of lines 49-62. *)
Definition initial_environ (sc : scope) (msg : message) (query : str)
  : environ :=
  list_to_map [
    (u "REQUEST_METHOD", VStr (method sc));
    (u "SCRIPT_NAME", VStr []);
    (u "PATH_INFO", VStr (path sc));
    (u "QUERY_STRING", VStr query);
    (u "SERVER_PROTOCOL", VStr (u "HTTP/" ++ http_version sc));
    (u "wsgi.version", VVersion 1 0);
    (u "wsgi.url_scheme", VStr (default (u "http") (scheme sc)));
    (u "wsgi.input", VBytesIO (default [] (message_body msg)));
    (u "wsgi.errors", VBytesIO []);
    (u "wsgi.multithread", VBool true);
    (u "wsgi.multiprocess", VBool true);
    (u "wsgi.run_once", VBool false)
  ].

(** Lines 64-72: server name and port, remote address. *)
Definition add_server (sc : scope) (env : environ) : environ :=
  match server sc with
  | Some (host, port) =>
      <[u "SERVER_PORT" := VStr (str_of_port port)]>
        (<[u "SERVER_NAME" := VStr host]> env)
  | None =>
      <[u "SERVER_PORT" := VStr (u "80")]>
        (<[u "SERVER_NAME" := VStr (u "localhost")]> env)
  end.

Definition add_client (sc : scope) (env : environ) : environ :=
  match client sc with
  | Some (addr, _) => <[u "REMOTE_ADDR" := VStr addr]> env
  | None => env
  end.

(** [WsgiToAsgiInstance.build_environ]. *)
Definition build_environ (sc : scope) (msg : message) : result environ :=
  query ← or_raise UnicodeDecodeError (decode_ascii (query_string sc));
  fold_headers
    (add_client sc (add_server sc (initial_environ sc msg query)))
    (default [] (headers sc)).

(** ** Outbound messages and the instance *)

(** The messages handed to [send]. A key that the adapter leaves out of the
    dict is [None]. *)
Inductive send_message :=
| http_response_start (status : Z) (response_headers : list (bytes * bytes))
| http_response_body (body : option bytes) (more_body : option bool).

(** How an ASGI server reads a response-body message: the body is the value
    of the ["body"] key, or the empty bytes when the key is missing, and the
    continuation flag is the value of the ["more_body"] key, or [False] when
    the key is missing. *)
Definition body_of (m : send_message) : bytes :=
  match m with http_response_body body _ => default [] body | _ => [] end.

Definition more_body_of (m : send_message) : bool :=
  match m with http_response_body _ more => default false more | _ => false end.

Definition is_start (m : send_message) : bool :=
  match m with http_response_start _ _ => true | _ => false end.

Definition is_body (m : send_message) : bool :=
  match m with http_response_body _ _ => true | _ => false end.

(** The attributes of a [WsgiToAsgiInstance] that change during a
    connection. [response_start] is [None] until the attribute is set. *)
Record instance := {
  response_started : bool;
  response_start : option send_message;
}.

(** [WsgiToAsgiInstance.__init__]. *)
Definition new_instance : instance :=
  {| response_started := false; response_start := None |}.

(** The instance together with the messages that [send] has accepted, oldest
    first. *)
Record world := {
  inst : instance;
  sent : list send_message;
}.

Definition sync_send (w : world) (m : send_message) : world :=
  {| inst := inst w; sent := sent w ++ [m] |}.

(** The list comprehension of lines 106-109. *)
Definition encode_headers (response_headers : list (str * str))
  : option (list (bytes * bytes)) :=
  mapM (λ '(name, value),
          n ← lower_encode_ascii name; v ← encode_ascii value; Some (n, v))
       response_headers.

(** Lines 102-115: the message that [start_response] stores. *)
Definition make_response_start (status : str)
    (response_headers : list (str * str)) : result send_message :=
  '(code, _) ← or_raise
      (ValueError "not enough values to unpack (expected 2, got 1)")
      (split_space status);
  status_code ← or_raise
      (ValueError "invalid literal for int() with base 10") (int code);
  hs ← or_raise UnicodeEncodeError (encode_headers response_headers);
  Ok (http_response_start status_code hs).

(** [WsgiToAsgiInstance.start_response]: the outcome and the instance after
    the call. *)
Definition start_response (self : instance) (status : str)
    (response_headers : list (str * str)) (exc : option exc_info)
  : result () * instance :=
  if response_started self then
    match exc with
    | Some ei =>
        (Raise (Raised (with_traceback (exc_value ei) (exc_tb ei))), self)
    | None =>
        (Raise (TypeError "'NoneType' object is not subscriptable"), self)
    end
  else
    match response_start self, exc with
    | Some _, None =>
        (Raise (ValueError
           "You cannot call start_response a second time without exc_info"),
         self)
    | _, _ =>
        match make_response_start status response_headers with
        | Ok m =>
            (Ok (), {| response_started := response_started self;
                       response_start := Some m |})
        | Raise e => (Raise e, self)
        end
    end.

(** Lines 128-130, and again lines 135-137: mark the response as started and
    send the stored start message. Reading [self.response_start] raises
    [AttributeError] when [start_response] has stored nothing. *)
Definition send_response_start (w : world) : result () * world :=
  if response_started (inst w) then (Ok (), w)
  else
    let w' := {| inst := {| response_started := true;
                            response_start := response_start (inst w) |};
                 sent := sent w |} in
    match response_start (inst w') with
    | Some m => (Ok (), sync_send w' m)
    | None =>
        (Raise (AttributeError
           "'WsgiToAsgiInstance' object has no attribute 'response_start'"),
         w')
    end.

(** The body of the [for] loop (lines 127-133). *)
Definition loop_body (w : world) (output : bytes) : result () * world :=
  match send_response_start w with
  | (Ok _, w') =>
      (Ok (), sync_send w' (http_response_body (Some output) (Some true)))
  | (Raise e, w') => (Raise e, w')
  end.

(** After the loop (lines 134-138). *)
Definition close_connection (w : world) : result () * world :=
  match send_response_start w with
  | (Ok _, w') => (Ok (), sync_send w' (http_response_body None None))
  | (Raise e, w') => (Raise e, w')
  end.

(** ** The WSGI application *)

(** What the application does once it is called with an environ: it ends
    the iteration, raises, yields a chunk, or calls [start_response] and goes
    on according to the outcome of that call. *)
Inductive wsgi_iter :=
| Stop
| Throw (e : exception)
| Yield (output : bytes) (rest : wsgi_iter)
| StartResponse (status : str) (response_headers : list (str * str))
    (exc : option exc_info) (k : result () → wsgi_iter).

Definition application := environ → wsgi_iter.

(** Yields the chunks in order, then goes on as [rest]. *)
Definition yields (chunks : list bytes) (rest : wsgi_iter) : wsgi_iter :=
  foldr Yield rest chunks.

(** An application that lets an exception of [start_response] escape. *)
Definition propagate (it : wsgi_iter) (r : result ()) : wsgi_iter :=
  match r with Ok _ => it | Raise e => Throw e end.

(** The [for] loop of [run_wsgi_app] and what follows it (lines 126-138). *)
Fixpoint iterate (w : world) (it : wsgi_iter) : result () * world :=
  match it with
  | Stop => close_connection w
  | Throw e => (Raise e, w)
  | Yield output rest =>
      match loop_body w output with
      | (Ok _, w') => iterate w' rest
      | (Raise e, w') => (Raise e, w')
      end
  | StartResponse status response_headers exc k =>
      let '(r, self) := start_response (inst w) status response_headers exc in
      iterate {| inst := self; sent := sent w |} (k r)
  end.

(** [WsgiToAsgiInstance.run_wsgi_app]. *)
Definition run_wsgi_app (app : application) (sc : scope) (w : world)
    (msg : message) : result () * world :=
  match build_environ sc msg with
  | Ok env => iterate w (app env)
  | Raise e => (Raise e, w)
  end.

(** [WsgiToAsgi.__call__]: a new instance, then
    [WsgiToAsgiInstance.__call__] with [msg] the message that [receive]
    returns. *)
Definition call (app : application) (sc : scope) (msg : message)
  : result () * world :=
  let w := {| inst := new_instance; sent := [] |} in
  if decide (scope_type sc ≠ u "http") then
    (Raise (ValueError "WSGI wrapper received a non-HTTP scope"), w)
  else if decide (message_type msg ≠ u "http.request") then
    (Raise (ValueError "WSGI wrapper received a non-HTTP-request message"), w)
  else run_wsgi_app app sc w msg.

(** ** The run as a transition system *)

(** Where the run stands: iterating over what is left of the application's
    output, returned, or aborted by an exception. *)
Inductive control :=
| Running (it : wsgi_iter)
| Returned
| Failed (e : exception).

Record config := {
  now : world;
  ctl : control;
}.

Definition settle (it : wsgi_iter) (r : result () * world) : config :=
  match r with
  | (Ok _, w) => {| now := w; ctl := Running it |}
  | (Raise e, w) => {| now := w; ctl := Failed e |}
  end.

Definition finish (r : result () * world) : config :=
  match r with
  | (Ok _, w) => {| now := w; ctl := Returned |}
  | (Raise e, w) => {| now := w; ctl := Failed e |}
  end.

(** One transition: a call of [start_response], one turn of the loop, the
    end of the loop, or an exception of the application. *)
Definition step (c : config) : option config :=
  match ctl c with
  | Running Stop => Some (finish (close_connection (now c)))
  | Running (Throw e) => Some {| now := now c; ctl := Failed e |}
  | Running (Yield output rest) => Some (settle rest (loop_body (now c) output))
  | Running (StartResponse status response_headers exc k) =>
      let '(r, self) :=
        start_response (inst (now c)) status response_headers exc in
      Some {| now := {| inst := self; sent := sent (now c) |};
              ctl := Running (k r) |}
  | Returned | Failed _ => None
  end.

Definition steps : relation config := rtc (λ c c', step c = Some c').

(** The configuration in which [run_wsgi_app] enters its loop. *)
Definition start_config (it : wsgi_iter) : config :=
  {| now := {| inst := new_instance; sent := [] |}; ctl := Running it |}.

(** ** Vocabulary of the properties *)

Definition count_starts (l : list send_message) : nat :=
  length (filter (λ m, is_start m = true) l).

(** Every body message in [l] comes after a start message. *)
Definition no_body_before_start (l : list send_message) : Prop :=
  ∀ l1 m l2, l = l1 ++ m :: l2 → is_body m = true →
             ∃ s, s ∈ l1 ∧ is_start s = true.

(** The values joined by commas, first value first. *)
Fixpoint comma_join (values : list str) : str :=
  match values with
  | [] => []
  | [v] => v
  | v :: rest => v ++ u "," ++ comma_join rest
  end.

(** The decoded values of the headers whose names fold to [key], in order of
    arrival. *)
Definition values_of (key : str) (hs : list (bytes * bytes)) : list str :=
  (λ h, decode_latin1 h.2) <$> filter (λ h, corrected_name h.1 = key) hs.

(** The keys that a header can be stored under. *)
Definition header_key (key : str) : Prop :=
  key = u "CONTENT_LENGTH" ∨ key = u "CONTENT_TYPE" ∨ ∃ s, key = u "HTTP_" ++ s.

(** What the loop leaves under a key: the value that was there, followed by
    the values that fold to the key. *)
Definition folded (old : option env_value) (values : list str)
  : option env_value :=
  match old, values with
  | _, [] => old
  | None, _ => Some (VStr (comma_join values))
  | Some (VStr s), _ => Some (VStr (comma_join (s :: values)))
  | Some other, _ => Some other
  end.

(** The message that carries one chunk. *)
Definition chunk_message (output : bytes) : send_message :=
  http_response_body (Some output) (Some true).

(** The last message of a response. *)
Definition last_message : send_message := http_response_body None None.

(** What holds in every configuration of a run: a stored message is a start
    message; the messages sent, if any, are the start message followed by
    body messages, and then the response is marked as started; a response
    marked as started with nothing sent is a run that failed; a run that
    returned has sent something. *)
Definition well_formed (c : config) : Prop :=
  (∀ m, response_start (inst (now c)) = Some m → is_start m = true)
  ∧ match sent (now c) with
    | [] => response_started (inst (now c)) = true → ∃ e, ctl c = Failed e
    | m :: bodies =>
        is_start m = true ∧ Forall (λ x, is_body x = true) bodies
        ∧ response_started (inst (now c)) = true
    end
  ∧ (ctl c = Returned → sent (now c) ≠ []).

(** ** Example inputs *)

Definition example_scope (hs : list (bytes * bytes)) : scope :=
  {| scope_type := u "http"; method := u "GET"; path := u "/index";
     query_string := b "a=1"; http_version := u "1.1"; scheme := None;
     server := None; client := Some (u "10.0.0.1", 1234%Z);
     headers := Some hs |}.

Definition example_request : message :=
  {| message_type := u "http.request"; message_body := None |}.

(** The environ built for the example request with the headers [hs]. *)
Definition example_environ (hs : list (bytes * bytes)) : environ :=
  match build_environ (example_scope hs) example_request with
  | Ok env => env
  | Raise _ => ∅
  end.

(** An application that answers "200 OK" with two chunks. *)
Definition example_app : application :=
  λ _, StartResponse (u "200 OK") [] None
         (propagate (yields [b "Hello, "; b "world"] Stop)).

(** An application that yields a chunk and never calls [start_response]. *)
Definition silent_app : application :=
  λ _, yields [b "Hello"] Stop.

Definition example_exception : exc_object :=
  {| exc_ident := 1; exc_class := "RuntimeError"; exc_traceback := [7; 3] |}.

(** An application that raises after calling [start_response]. *)
Definition failing_app : application :=
  λ _, StartResponse (u "200 OK") [] None
         (propagate (Throw (Raised example_exception))).

(** An instance whose start message is stored and not sent, and one whose
    start message has been sent. *)
Definition pending_instance : instance :=
  {| response_started := false;
     response_start := Some (http_response_start 200 []) |}.

Definition started_instance : instance :=
  {| response_started := true;
     response_start := Some (http_response_start 200 []) |}.

(** The scope [sc] with the header list [hs] instead of its own. *)
Definition with_headers (sc : scope) (hs : list (bytes * bytes)) : scope :=
  {| scope_type := scope_type sc; method := method sc; path := path sc;
     query_string := query_string sc; http_version := http_version sc;
     scheme := scheme sc; server := server sc; client := client sc;
     headers := Some hs |}.

(** The decoded values of the headers named exactly [name], in order of
    arrival. *)
Definition values_named (name : bytes) (hs : list (bytes * bytes))
  : list str :=
  (λ h, decode_latin1 h.2) <$> filter (λ h, h.1 = name) hs.

(** The byte that [name.lower().encode("ascii")] gives for a code point it
    accepts: A-Z move up by 0x20, KELVIN SIGN becomes "k", any other ASCII
    code point stays. *)
Definition lower_cp (c : codepoint) : codepoint :=
  if (65 <=? c) && (c <=? 90) then c + 32
  else if c =? 8490 then 107
  else c.

(** An ASCII lowercase letter. *)
Definition lowercase_letter (c : codepoint) : Prop := 97 ≤ c ∧ c ≤ 122.

(** An ASCII uppercase letter. *)
Definition uppercase_letter (c : codepoint) : Prop := 65 ≤ c ∧ c ≤ 90.

(** A scope of another protocol, a message of another type, a scope whose
    query string holds the byte 0xff, and a scope with a server address. *)
Definition websocket_scope : scope :=
  {| scope_type := u "websocket"; method := u "GET"; path := u "/ws";
     query_string := []; http_version := u "1.1"; scheme := Some (u "ws");
     server := None; client := None; headers := None |}.

Definition disconnect_message : message :=
  {| message_type := u "http.disconnect"; message_body := None |}.

Definition non_ascii_scope : scope :=
  {| scope_type := u "http"; method := u "GET"; path := u "/";
     query_string := [xff]; http_version := u "1.1"; scheme := None;
     server := None; client := None; headers := None |}.

Definition server_scope : scope :=
  {| scope_type := u "http"; method := u "POST"; path := u "/submit";
     query_string := []; http_version := u "2"; scheme := Some (u "https");
     server := Some (u "example.org", Some 8443%Z); client := None;
     headers := Some [(b "server-name", b "evil"); (b "x_real-ip", b "1.2.3.4")] |}.

Definition post_request : message :=
  {| message_type := u "http.request"; message_body := Some (b "a=1&b=2") |}.

(** An application that changes its mind before the first chunk; one that
    reports an error after the first chunk; one that raises after a chunk;
    one that yields before it calls [start_response]. *)
Definition replacing_app : application :=
  λ _, StartResponse (u "200 OK") [(u "Content-Type", u "text/plain")] None
         (propagate
            (StartResponse (u "500 Internal Server Error") []
               (Some (sys_exc_info example_exception))
               (propagate (yields [b "failed"] Stop)))).

Definition late_error_app : application :=
  λ _, StartResponse (u "200 OK") [] None
         (propagate
            (yields [b "partial"]
               (StartResponse (u "500 Internal Server Error") []
                  (Some (sys_exc_info example_exception))
                  (propagate Stop)))).

Definition raising_app : application :=
  λ _, StartResponse (u "200 OK") [] None
         (propagate
            (yields [b "partial"] (Throw (Raised example_exception)))).

Definition late_start_app : application :=
  λ _, Yield (b "early")
         (StartResponse (u "200 OK") [] None (propagate Stop)).

(** The environ built for a scope and a message, empty when
    [build_environ] raises. *)
Definition environ_of (sc : scope) (msg : message) : environ :=
  match build_environ sc msg with
  | Ok env => env
  | Raise _ => ∅
  end.

(** The configuration in which the run of [example_app] ends. *)
Definition example_final : config :=
  {| now := {| inst := started_instance;
               sent := [ http_response_start 200 [];
                         chunk_message (b "Hello, ");
                         chunk_message (b "world");
                         last_message ] |};
     ctl := Returned |}.

(** ** Properties of [start_response] *)

Section start_response.

Implicit Types (self : instance) (status : str) (hs : list (str * str)).

Lemma with_traceback_same (e : exc_object) :
  with_traceback e (exc_traceback e) = e.
Proof. by destruct e. Qed.

Lemma split_space_Some status code reason :
  split_space status = Some (code, reason) ↔
  status = code ++ (32 :: reason) ∧ 32 ∉ code.
Proof.
  revert code. induction status as [|c rest IH]; intros code; simpl.
  - split; [done|]. intros [E _]. by destruct code.
  - destruct (N.eqb_spec c 32) as [->|Hc].
    + split.
      * intros [= <- <-]. split; [done|]. apply not_elem_of_nil.
      * intros [E Hin]. destruct code as [|c' code]; simplify_eq/=; [done|].
        exfalso. apply Hin. left.
    + destruct (split_space rest) as [[before after]|] eqn:Hs; simpl.
      * split.
        -- intros [= <- <-]. destruct (proj1 (IH before) eq_refl) as [-> Hin].
           split; [done|]. by intros [?|?]%elem_of_cons.
        -- intros [E Hin]. destruct code as [|c' code]; simplify_eq/=.
           apply not_elem_of_cons in Hin as [_ Hin].
           pose proof (proj2 (IH code) (conj eq_refl Hin)). by simplify_eq.
      * split; [done|]. intros [E Hin].
        destruct code as [|c' code]; simplify_eq/=.
        apply not_elem_of_cons in Hin as [_ Hin].
        pose proof (proj2 (IH code) (conj eq_refl Hin)). by simplify_eq.
Qed.

Lemma split_space_None status : split_space status = None ↔ 32 ∉ status.
Proof.
  induction status as [|c rest IH]; simpl.
  - split; [intros _; apply not_elem_of_nil | done].
  - destruct (N.eqb_spec c 32) as [->|Hc].
    + split; [done|]. intros Hin. exfalso. apply Hin. left.
    + destruct (split_space rest) as [[before after]|]; simpl.
      * split; [done|]. intros Hin. apply not_elem_of_cons in Hin as [_ Hin].
        by apply IH in Hin.
      * split; [|done]. intros _. apply not_elem_of_cons. split; [done|].
        by apply IH.
Qed.

(** A call either stores a message and returns, or raises and leaves the
    instance as it was. *)
Lemma start_response_cases self status hs exc :
  (∃ m, start_response self status hs exc =
          (Ok (), {| response_started := response_started self;
                     response_start := Some m |})
        ∧ make_response_start status hs = Ok m
        ∧ response_started self = false)
  ∨ (∃ e, start_response self status hs exc = (Raise e, self)).
Proof.
  unfold start_response.
  destruct (response_started self) eqn:Hs.
  { right. destruct exc; eauto. }
  destruct (make_response_start status hs) as [m|e] eqn:Hm.
  - destruct (response_start self), exc; eauto 10.
  - right. destruct (response_start self), exc; eauto.
Qed.

Lemma make_response_start_Ok status hs m :
  make_response_start status hs = Ok m →
  ∃ code reason n enc,
    split_space status = Some (code, reason) ∧ int code = Some n ∧
    m = http_response_start n enc.
Proof.
  unfold make_response_start.
  destruct (split_space status) as [[code reason]|]; simpl; [|done].
  destruct (int code) as [n|] eqn:Hint; simpl; [|done].
  destruct (encode_headers hs) as [enc|]; simpl; [|done].
  intros [= <-]. by exists code, reason, n, enc.
Qed.

(** C6. When the start message has been sent ([response_started] is true) and
    error info is supplied, [start_response] raises the exception object of
    the error info (same identity and class, carrying the traceback of the
    error info, hence the very object when the error info is the
    [sys.exc_info()] triple of that exception); the instance is unchanged and
    the call sends nothing. *)
Theorem start_response_reraises self status hs (ei : exc_info) :
  response_started self = true →
  let raised := with_traceback (exc_value ei) (exc_tb ei) in
  start_response self status hs (Some ei) = (Raise (Raised raised), self)
  ∧ exc_ident raised = exc_ident (exc_value ei)
  ∧ exc_class raised = exc_class (exc_value ei)
  ∧ (∀ e, ei = sys_exc_info e →
          start_response self status hs (Some ei) = (Raise (Raised e), self))
  ∧ (∀ out k,
       step {| now := {| inst := self; sent := out |};
               ctl := Running (StartResponse status hs (Some ei) k) |}
       = Some {| now := {| inst := self; sent := out |};
                 ctl := Running (k (Raise (Raised raised))) |}).
Proof.
  intros Hs raised. unfold step, start_response; simpl. rewrite Hs.
  repeat split; try done.
  intros e ->. subst raised; simpl. by rewrite with_traceback_same.
Qed.

(** C7. When a start message has been stored but not sent and no error info
    is supplied, [start_response] raises the usage error and the stored
    message stays as it was. *)
Theorem start_response_twice_without_exc_info self status hs m :
  response_started self = false →
  response_start self = Some m →
  start_response self status hs None
  = (Raise (ValueError
       "You cannot call start_response a second time without exc_info"),
     self).
Proof. intros Hs Hm. unfold start_response. by rewrite Hs, Hm. Qed.

(** C9. Every call of [start_response] made once [response_started] is true
    raises and leaves the instance unchanged; without error info the
    exception is the [TypeError] of subscripting [None], not the [ValueError]
    of the usage-error branch, also when a start message is stored. *)
Theorem start_response_after_start_raises self status hs exc :
  response_started self = true →
  (∃ e, start_response self status hs exc = (Raise e, self))
  ∧ start_response self status hs None
    = (Raise (TypeError "'NoneType' object is not subscriptable"), self)
  ∧ (∀ text, start_response self status hs None
             ≠ (Raise (ValueError text), self)).
Proof.
  intros Hs. unfold start_response. rewrite Hs.
  split; [destruct exc; eauto|]. split; [done|]. by intros text.
Qed.

(** C10. [start_response] returns normally, storing a start message, only
    when the status holds a space and the text before its first space parses
    as an integer, which is then the stored status code; when the status has
    no space, or the text before its first space does not parse as an
    integer, the call raises and the instance is left as it was. *)
Theorem start_response_status self status hs exc :
  (∀ self', start_response self status hs exc = (Ok (), self') →
     ∃ code reason n enc,
       status = code ++ (32 :: reason) ∧ (32 ∉ code) ∧ int code = Some n ∧
       response_start self' = Some (http_response_start n enc))
  ∧ (32 ∉ status →
     ∃ e, start_response self status hs exc = (Raise e, self))
  ∧ (∀ code reason,
       status = code ++ (32 :: reason) → 32 ∉ code → int code = None →
       ∃ e, start_response self status hs exc = (Raise e, self)).
Proof.
  destruct (start_response_cases self status hs exc)
    as [(m & E & Hm & _)|[e E]]; rewrite E.
  - apply make_response_start_Ok in Hm
      as (code & reason & n & enc & Hsplit & Hint & ->).
    pose proof (proj1 (split_space_Some _ _ _) Hsplit) as [Hst Hcode].
    split; [|split].
    + intros self' [= <-]. simpl. by exists code, reason, n, enc.
    + intros Hno%split_space_None. congruence.
    + intros code' reason' Hst' Hcode' Hint'.
      pose proof (proj2 (split_space_Some _ _ _) (conj Hst' Hcode')).
      congruence.
  - split; [done|]. split; eauto.
Qed.

End start_response.

(** ** Properties of [build_environ] *)

Section build_environ.

Implicit Types (sc : scope) (msg : message) (env : environ) (key : str).
Implicit Types (hs : list (bytes * bytes)).

Lemma corrected_name_header_key name : header_key (corrected_name name).
Proof.
  unfold corrected_name, header_key.
  repeat case_decide; eauto.
Qed.

Lemma decode_latin1_inj : Inj (=) (=) decode_latin1.
Proof.
  intros x. induction x as [|c x IH]; intros [|d y] [=]; [done|].
  f_equal; [|by apply IH].
  assert (Byte.of_N (Byte.to_N c) = Byte.of_N (Byte.to_N d)) as E
    by congruence.
  rewrite !Byte.of_to_N in E. congruence.
Qed.

(** Two keys spelled out as literals, or a literal and a key that starts
    with "HTTP_", differ: their code points are compared. *)
Local Ltac keys_differ :=
  let H := fresh in intros H; vm_compute in H; discriminate H.

(** No header key is a key of the environ before the headers are folded. *)
Lemma initial_environ_header_key sc msg query key :
  header_key key →
  add_client sc (add_server sc (initial_environ sc msg query)) !! key = None.
Proof.
  intros Hk. unfold add_client, add_server, initial_environ.
  rewrite !list_to_map_cons, list_to_map_nil.
  destruct (client sc) as [[addr ?]|], (server sc) as [[host port]|];
    destruct Hk as [->|[->|[s ->]]];
    rewrite ?lookup_insert_ne by keys_differ; apply lookup_empty.
Qed.

Lemma folded_nil (old : option env_value) : folded old [] = old.
Proof. by destruct old as [[]|]. Qed.

Lemma folded_cons_None (v : str) (l : list str) :
  folded None (v :: l) = Some (VStr (comma_join (v :: l))).
Proof. done. Qed.

Lemma folded_cons_Some (s v : str) (l : list str) :
  folded (Some (VStr s)) (v :: l) = Some (VStr (comma_join (s :: v :: l))).
Proof. done. Qed.

Lemma comma_join_cons2 (v w : str) (l : list str) :
  comma_join (v :: w :: l) = v ++ u "," ++ comma_join (w :: l).
Proof. done. Qed.

Lemma comma_join_merge (old value : str) (l : list str) :
  comma_join ((old ++ u "," ++ value) :: l) = comma_join (old :: value :: l).
Proof.
  destruct l as [|w l]; [done|].
  rewrite !comma_join_cons2. by rewrite <- !app_assoc.
Qed.

Lemma values_of_cons key name value hs :
  values_of key ((name, value) :: hs)
  = if decide (corrected_name name = key)
    then decode_latin1 value :: values_of key hs else values_of key hs.
Proof.
  unfold values_of. rewrite filter_cons. simpl. by case_decide.
Qed.

(** The header loop never raises when the header keys of the environ hold
    str values, and it leaves under each key the values joined by commas. *)
Lemma fold_headers_spec hs env :
  (∀ key v, header_key key → env !! key = Some v → ∃ s, v = VStr s) →
  ∃ env', fold_headers env hs = Ok env'
          ∧ ∀ key, env' !! key = folded (env !! key) (values_of key hs).
Proof.
  revert env. induction hs as [|[name value] hs IH]; intros env Hstr.
  { exists env. split; [done|]. intros key. by rewrite folded_nil. }
  simpl.
  pose proof (corrected_name_header_key name) as Hk.
  set (c := corrected_name name) in *.
  assert (∀ s, ∃ env',
    fold_headers (<[c := VStr s]> env) hs = Ok env'
    ∧ ∀ key, env' !! key
        = folded (<[c := VStr s]> env !! key) (values_of key hs)) as Hnext.
  { intros s. apply IH. intros key v Hkey.
    rewrite lookup_insert. case_decide; [intros [= <-]; eauto|].
    by apply Hstr. }
  destruct (env !! c) as [old|] eqn:Hc.
  - destruct (Hstr c old Hk Hc) as [s ->].
    destruct (Hnext (s ++ u "," ++ decode_latin1 value))
      as (env' & E & Hlook).
    exists env'. split; [exact E|]. intros key.
    rewrite Hlook, values_of_cons, lookup_insert. fold c.
    case_decide as Hkey; [subst key|done].
    rewrite Hc, folded_cons_Some.
    destruct (values_of c hs) as [|w l]; [done|].
    by rewrite folded_cons_Some, comma_join_merge.
  - destruct (Hnext (decode_latin1 value)) as (env' & E & Hlook).
    exists env'. split; [exact E|]. intros key.
    rewrite Hlook, values_of_cons, lookup_insert. fold c.
    case_decide as Hkey; [subst key|done].
    rewrite Hc, folded_cons_None. by destruct (values_of c hs).
Qed.

(** [build_environ] raises only when the query string is not ASCII, and the
    headers are folded over the initial environ. *)
Lemma build_environ_spec sc msg :
  match decode_ascii (query_string sc) with
  | Some query =>
      ∃ env, build_environ sc msg = Ok env
        ∧ ∀ key, env !! key
            = folded (add_client sc (add_server sc
                        (initial_environ sc msg query)) !! key)
                     (values_of key (default [] (headers sc)))
  | None => build_environ sc msg = Raise UnicodeDecodeError
  end.
Proof.
  unfold build_environ.
  destruct (decode_ascii (query_string sc)) as [query|]; simpl; [|done].
  apply fold_headers_spec. intros key v Hk.
  by rewrite initial_environ_header_key.
Qed.

Lemma build_environ_lookup sc msg env :
  build_environ sc msg = Ok env →
  ∃ query, decode_ascii (query_string sc) = Some query
    ∧ ∀ key, env !! key
        = folded (add_client sc (add_server sc
                    (initial_environ sc msg query)) !! key)
                 (values_of key (default [] (headers sc))).
Proof.
  intros Hb. pose proof (build_environ_spec sc msg) as Hspec.
  destruct (decode_ascii (query_string sc)) as [query|]; [|congruence].
  destruct Hspec as (env' & E & Hlook).
  exists query. split; [done|]. congruence.
Qed.

(** A key that no header folds to keeps its initial value. *)
Lemma values_of_other key hs :
  ¬ header_key key → values_of key hs = [].
Proof.
  intros Hk. induction hs as [|[name value] hs IH]; [done|].
  rewrite values_of_cons. case_decide as E; [|done].
  destruct Hk. rewrite <- E. apply corrected_name_header_key.
Qed.

(** Values fold only to header keys. *)
Lemma values_of_header_key key hs :
  values_of key hs ≠ [] → header_key key.
Proof.
  induction hs as [|[name value] hs IH]; [done|].
  rewrite values_of_cons. case_decide as E; [|done].
  intros _. rewrite <- E. apply corrected_name_header_key.
Qed.

End build_environ.

Section environ_keys.

Implicit Types (sc : scope) (msg : message) (env : environ) (key : str).

Local Ltac keys_differ :=
  let H := fresh in intros H; vm_compute in H; discriminate H.

Local Ltac not_header_key :=
  let H := fresh in
  intros [H|[H|[? H]]]; vm_compute in H; discriminate H.

(** The value stored under a key of the dict literal. *)
Local Ltac initial_lookup :=
  unfold add_client, add_server, initial_environ;
  rewrite !list_to_map_cons, list_to_map_nil;
  repeat case_match;
  rewrite ?lookup_insert_ne by keys_differ; apply lookup_insert_eq.

Lemma corrected_name_eq (name : bytes) :
  corrected_name name
  = if decide (name = b "content-length") then u "CONTENT_LENGTH"
    else if decide (name = b "content-type") then u "CONTENT_TYPE"
    else u "HTTP_" ++ replace 45 95 (upper (decode_latin1 name)).
Proof.
  unfold corrected_name.
  change (u "content-length") with (decode_latin1 (b "content-length")).
  change (u "content-type") with (decode_latin1 (b "content-type")).
  repeat case_decide; try done; exfalso;
    naive_solver eauto using decode_latin1_inj.
Qed.

(** C2, amended. A header whose name is exactly the lowercase bytes
    [content-length] (respectively [content-type]) is stored under
    [CONTENT_LENGTH] (respectively [CONTENT_TYPE]); every other name, also
    one that differs from these only in letter case, is stored under
    [HTTP_] followed by the name uppercased with every "-" replaced by "_".
    With one header in the scope, the environ holds the decoded value under
    that key and holds no other header key. *)
Theorem header_name_to_key sc msg env name value :
  build_environ sc msg = Ok env →
  headers sc = Some [(name, value)] →
  let key :=
    if decide (name = b "content-length") then u "CONTENT_LENGTH"
    else if decide (name = b "content-type") then u "CONTENT_TYPE"
    else u "HTTP_" ++ replace 45 95 (upper (decode_latin1 name)) in
  corrected_name name = key
  ∧ env !! key = Some (VStr (decode_latin1 value))
  ∧ ∀ other, header_key other → other ≠ key → env !! other = None.
Proof.
  intros Hb Hh key.
  destruct (build_environ_lookup _ _ _ Hb) as (query & _ & Hlook).
  rewrite Hh in Hlook. simpl in Hlook.
  assert (corrected_name name = key) as Hkey by apply corrected_name_eq.
  split; [done|]. split.
  - rewrite Hlook, values_of_cons, decide_True by done.
    rewrite initial_environ_header_key
      by (rewrite <- Hkey; apply corrected_name_header_key).
    done.
  - intros other Hother Hne.
    rewrite Hlook, values_of_cons, decide_False by congruence.
    by rewrite initial_environ_header_key.
Qed.

(** C4. When one or more headers fold to the same environ key, in particular
    two or more, the environ holds under that key their decoded values
    joined by commas in order of arrival. *)
Theorem duplicate_headers_joined sc msg env key :
  build_environ sc msg = Ok env →
  values_of key (default [] (headers sc)) ≠ [] →
  env !! key
  = Some (VStr (comma_join (values_of key (default [] (headers sc))))).
Proof.
  intros Hb Hvs.
  destruct (build_environ_lookup _ _ _ Hb) as (query & _ & Hlook).
  rewrite Hlook.
  destruct (values_of key (default [] (headers sc))) as [|v l] eqn:E; [done|].
  rewrite initial_environ_header_key; [done|].
  apply (values_of_header_key key (default [] (headers sc))). by rewrite E.
Qed.

(** C8, amended. The protocol string of the environ is "HTTP/" followed by
    the protocol version of the scope; the method, the path, the
    ASCII-decoded query string and the scheme (or "http" when the scope has
    none) are copied as they are. *)
Theorem build_environ_request_line sc msg env :
  build_environ sc msg = Ok env →
  env !! u "SERVER_PROTOCOL" = Some (VStr (u "HTTP/" ++ http_version sc))
  ∧ env !! u "REQUEST_METHOD" = Some (VStr (method sc))
  ∧ env !! u "PATH_INFO" = Some (VStr (path sc))
  ∧ (∃ query, decode_ascii (query_string sc) = Some query
              ∧ env !! u "QUERY_STRING" = Some (VStr query))
  ∧ env !! u "wsgi.url_scheme" = Some (VStr (default (u "http") (scheme sc))).
Proof.
  intros Hb.
  destruct (build_environ_lookup _ _ _ Hb) as (query & Hq & Hlook).
  repeat split; [..|exists query; split; [done|]|];
    rewrite Hlook, values_of_other, folded_nil by not_header_key;
    initial_lookup.
Qed.

End environ_keys.

(** ** The environ of concrete header lists *)

(** The example scope has an ASCII query string, so its environ is built. *)
Lemma example_environ_built (hs : list (bytes * bytes)) :
  build_environ (example_scope hs) example_request = Ok (example_environ hs).
Proof.
  unfold example_environ.
  pose proof (build_environ_spec (example_scope hs) example_request) as H.
  change (decode_ascii (query_string (example_scope hs)))
    with (Some (u "a=1")) in H.
  destruct H as (env & -> & _). done.
Qed.

(** C2 as the spec states it fails: the name [Content-Length] is stored
    under [HTTP_CONTENT_LENGTH], and [CONTENT_LENGTH] is not a key. *)
Lemma capitalised_content_length :
  ∃ env,
    build_environ (example_scope [(b "Content-Length", b "5")]) example_request
    = Ok env
    ∧ env !! u "CONTENT_LENGTH" = None
    ∧ env !! u "HTTP_CONTENT_LENGTH" = Some (VStr (u "5")).
Proof.
  exists (example_environ [(b "Content-Length", b "5")]).
  split; [by apply example_environ_built|]. split; vm_compute; reflexivity.
Qed.

(** The lowercase name [content-length] is stored under [CONTENT_LENGTH]. *)
Lemma header_name_to_key_witness :
  let hs := [(b "content-length", b "5")] in
  build_environ (example_scope hs) example_request = Ok (example_environ hs)
  ∧ headers (example_scope hs) = Some hs
  ∧ example_environ hs !! u "CONTENT_LENGTH" = Some (VStr (u "5"))
  ∧ example_environ hs !! u "HTTP_CONTENT_LENGTH" = None.
Proof.
  intros hs.
  assert (build_environ (example_scope hs) example_request
          = Ok (example_environ hs)) as Hb by (vm_compute; reflexivity).
  split; [exact Hb|]. split; [reflexivity|].
  destruct (header_name_to_key (example_scope hs) example_request
              (example_environ hs) (b "content-length") (b "5") Hb eq_refl)
    as (_ & Hkey & Hother).
  split; [exact Hkey|].
  apply Hother.
  - right; right. by exists (u "CONTENT_LENGTH").
  - intros H; vm_compute in H; discriminate H.
Defined.

(** Two [X-Foo] headers are stored under [HTTP_X_FOO], joined by a comma. *)
Lemma duplicate_headers_joined_witness :
  let hs := [(b "X-Foo", b "a"); (b "X-Foo", b "b")] in
  build_environ (example_scope hs) example_request = Ok (example_environ hs)
  ∧ values_of (u "HTTP_X_FOO") hs = [u "a"; u "b"]
  ∧ example_environ hs !! u "HTTP_X_FOO" = Some (VStr (u "a,b")).
Proof.
  intros hs.
  assert (build_environ (example_scope hs) example_request
          = Ok (example_environ hs)) as Hb by (vm_compute; reflexivity).
  assert (values_of (u "HTTP_X_FOO") hs = [u "a"; u "b"]) as Hvs
    by (vm_compute; reflexivity).
  split; [exact Hb|]. split; [exact Hvs|].
  rewrite (duplicate_headers_joined (example_scope hs) example_request
             (example_environ hs) (u "HTTP_X_FOO") Hb).
  - simpl default. rewrite Hvs. reflexivity.
  - simpl default. rewrite Hvs. discriminate.
Defined.

(** C8 as the spec states it fails: the version "1.1" of the scope gives the
    protocol string "HTTP/1.1". *)
Lemma server_protocol_not_copied :
  ∃ env,
    build_environ (example_scope []) example_request = Ok env
    ∧ http_version (example_scope []) = u "1.1"
    ∧ env !! u "SERVER_PROTOCOL" = Some (VStr (u "HTTP/1.1"))
    ∧ env !! u "SERVER_PROTOCOL" ≠ Some (VStr (http_version (example_scope []))).
Proof.
  exists (example_environ []).
  split; [by apply example_environ_built|]. split; [done|].
  split; [vm_compute; reflexivity|].
  intros H; vm_compute in H; discriminate H.
Qed.

(** The request line of the example scope. *)
Lemma build_environ_request_line_witness :
  build_environ (example_scope []) example_request = Ok (example_environ [])
  ∧ example_environ [] !! u "SERVER_PROTOCOL" = Some (VStr (u "HTTP/1.1"))
  ∧ example_environ [] !! u "REQUEST_METHOD" = Some (VStr (u "GET"))
  ∧ example_environ [] !! u "QUERY_STRING" = Some (VStr (u "a=1")).
Proof.
  assert (build_environ (example_scope []) example_request
          = Ok (example_environ [])) as Hb by (vm_compute; reflexivity).
  destruct (build_environ_request_line (example_scope []) example_request
              (example_environ []) Hb)
    as (Hproto & Hmethod & _ & (query & Hq & Hquery) & _).
  split; [exact Hb|]. split; [exact Hproto|]. split; [exact Hmethod|].
  rewrite Hquery. f_equal. f_equal.
  assert (Some query = Some (u "a=1")) as [= ->]
    by (rewrite <- Hq; vm_compute; reflexivity).
  reflexivity.
Defined.

(** ** The response loop *)

Section run_wsgi_app.

Implicit Types (w : world) (it rest : wsgi_iter) (chunks : list bytes).

(** Once the response has started, each chunk adds one body message. *)
Lemma iterate_yields_started w chunks rest :
  response_started (inst w) = true →
  iterate w (yields chunks rest)
  = iterate {| inst := inst w; sent := sent w ++ (chunk_message <$> chunks) |}
      rest.
Proof.
  revert w. induction chunks as [|c chunks IH]; intros w Hs; simpl.
  - rewrite app_nil_r. by destruct w.
  - unfold loop_body, send_response_start. rewrite Hs.
    rewrite IH by done. simpl. by rewrite <- app_assoc.
Qed.

(** With a start message stored and not yet sent, the run sends it, then
    the chunks, then the last message. *)
Lemma iterate_yields_pending w chunks m :
  response_started (inst w) = false →
  response_start (inst w) = Some m →
  iterate w (yields chunks Stop)
  = (Ok (),
     {| inst := {| response_started := true; response_start := Some m |};
        sent := sent w ++ m :: (chunk_message <$> chunks) ++ [last_message] |}).
Proof.
  intros Hs Hm. destruct chunks as [|c chunks]; simpl.
  - unfold close_connection, send_response_start. rewrite Hs. simpl.
    rewrite Hm. unfold sync_send; simpl. by rewrite <- app_assoc.
  - unfold loop_body, send_response_start. rewrite Hs. simpl. rewrite Hm.
    rewrite iterate_yields_started by done. simpl.
    unfold close_connection, send_response_start; simpl.
    unfold sync_send; simpl. by rewrite <- !app_assoc.
Qed.

(** With no start message stored, the run fails on reading the attribute,
    whether or not chunks are yielded, and sends nothing. *)
Lemma iterate_yields_unset w chunks :
  response_started (inst w) = false →
  response_start (inst w) = None →
  iterate w (yields chunks Stop)
  = (Raise (AttributeError
       "'WsgiToAsgiInstance' object has no attribute 'response_start'"),
     {| inst := {| response_started := true; response_start := None |};
        sent := sent w |}).
Proof.
  intros Hs Hm. destruct chunks as [|c chunks]; simpl.
  - unfold close_connection, send_response_start. rewrite Hs. simpl.
    by rewrite Hm.
  - unfold loop_body, send_response_start. rewrite Hs. simpl. by rewrite Hm.
Qed.

Lemma call_http app sc msg env :
  scope_type sc = u "http" →
  message_type msg = u "http.request" →
  build_environ sc msg = Ok env →
  call app sc msg
  = iterate {| inst := new_instance; sent := [] |} (app env).
Proof.
  intros Ht Hm Hb. unfold call, run_wsgi_app.
  rewrite decide_False by (by intros []).
  rewrite decide_False by (by intros []).
  by rewrite Hb.
Qed.

(** C1. An application that calls [start_response] once, with status
    "200 OK" and no headers, and then yields the chunks [chunks], run on an
    "http" scope and a request message for which it is called: the messages
    sent are the start message with status 200 and no headers, one body
    message per chunk in order with the chunk as body and [more_body] true,
    and a last body message, which carries neither key and so reads as an
    empty body with [more_body] false. *)
Theorem run_200_OK (app : application) sc msg env exc k chunks :
  scope_type sc = u "http" →
  message_type msg = u "http.request" →
  build_environ sc msg = Ok env →
  app env = StartResponse (u "200 OK") [] exc k →
  k (Ok ()) = yields chunks Stop →
  (call app sc msg).1 = Ok ()
  ∧ sent (call app sc msg).2
    = http_response_start 200 []
      :: ((λ c, http_response_body (Some c) (Some true)) <$> chunks)
      ++ [http_response_body None None]
  ∧ (λ m, (body_of m, more_body_of m)) <$> drop 1 (sent (call app sc msg).2)
    = ((λ c, (c, true)) <$> chunks) ++ [([], false)].
Proof.
  intros Ht Hm Hb Happ Hk.
  rewrite (call_http app sc msg env) by done.
  rewrite Happ. cbn [iterate inst sent].
  assert (start_response new_instance (u "200 OK") [] exc
          = (Ok (), {| response_started := false;
                       response_start := Some (http_response_start 200 []) |}))
    as -> by (by destruct exc).
  rewrite Hk, (iterate_yields_pending _ _ (http_response_start 200 [])) by done.
  simpl. repeat split.
  rewrite drop_0, fmap_app, <- list_fmap_compose. done.
Qed.

(** C5. When the iteration of the application ends and [start_response] was
    never called, the run raises (the [AttributeError] of reading the start
    message that was never stored) and no message, hence no start message,
    has been sent. *)
Theorem run_without_start_response (app : application) sc msg env chunks :
  scope_type sc = u "http" →
  message_type msg = u "http.request" →
  build_environ sc msg = Ok env →
  app env = yields chunks Stop →
  call app sc msg
  = (Raise (AttributeError
       "'WsgiToAsgiInstance' object has no attribute 'response_start'"),
     {| inst := {| response_started := true; response_start := None |};
        sent := [] |})
  ∧ count_starts (sent (call app sc msg).2) = 0%nat.
Proof.
  intros Ht Hm Hb Happ.
  rewrite (call_http app sc msg env) by done.
  rewrite Happ, iterate_yields_unset by done. done.
Qed.

End run_wsgi_app.

(** ** The order of the messages sent *)

Section invariant.

Implicit Types (c : config) (w : world) (it : wsgi_iter).

Lemma well_formed_start it : well_formed (start_config it).
Proof. repeat split; done. Qed.

Lemma start_response_keeps self status hs exc r self' :
  start_response self status hs exc = (r, self') →
  response_started self' = response_started self
  ∧ ((∀ m, response_start self = Some m → is_start m = true) →
     ∀ m, response_start self' = Some m → is_start m = true).
Proof.
  intros E.
  destruct (start_response_cases self status hs exc)
    as [(m & E' & Hm & _)|[e E']]; rewrite E' in E; simplify_eq; [|done].
  split; [done|]. intros _ m' [= <-].
  by apply make_response_start_Ok in Hm as (? & ? & ? & ? & _ & _ & ->).
Qed.

(** The outcome of [send_response_start] on a well-formed configuration. *)
Lemma send_response_start_cases w :
  (response_started (inst w) = true ∧ send_response_start w = (Ok (), w))
  ∨ (∃ m, response_started (inst w) = false
          ∧ response_start (inst w) = Some m
          ∧ send_response_start w
            = (Ok (), {| inst := {| response_started := true;
                                    response_start := Some m |};
                         sent := sent w ++ [m] |}))
  ∨ (∃ e, response_started (inst w) = false
          ∧ response_start (inst w) = None
          ∧ send_response_start w
            = (Raise e, {| inst := {| response_started := true;
                                      response_start := None |};
                           sent := sent w |})).
Proof.
  unfold send_response_start.
  destruct (response_started (inst w)); [by left|]. right. simpl.
  destruct (response_start (inst w)) as [m|]; [left|right]; eauto.
Qed.

(** Sending one more body message after [send_response_start]. *)
Lemma well_formed_send w ctl0 ctl1 body more :
  well_formed {| now := w; ctl := ctl0 |} →
  (∀ e, ctl0 ≠ Failed e) →
  well_formed
    match send_response_start w with
    | (Ok _, w') =>
        {| now := sync_send w' (http_response_body body more); ctl := ctl1 |}
    | (Raise e, w') => {| now := w'; ctl := Failed e |}
    end.
Proof.
  intros (Hm & Hsent & _) Hrun. simpl in *.
  destruct (send_response_start_cases w)
    as [[Hs ->]|[(m & Hs & Hst & ->)|(e & Hs & Hst & ->)]].
  - destruct (sent w) as [|m0 bodies] eqn:Hw.
    { destruct (Hsent Hs) as [e He]. by destruct (Hrun e). }
    destruct Hsent as (H1 & H2 & H3).
    unfold well_formed, sync_send. simpl. rewrite Hw. simpl.
    repeat split; try done.
    apply Forall_app. split; [done|]. by apply Forall_singleton.
  - destruct (sent w) as [|m0 bodies] eqn:Hw.
    2:{ destruct Hsent as (_ & _ & H3). congruence. }
    unfold well_formed, sync_send. simpl.
    repeat split; try done.
    + by intros ? [= <-]; apply Hm.
    + by apply Hm.
    + by apply Forall_singleton.
  - destruct (sent w) as [|m0 bodies] eqn:Hw.
    2:{ destruct Hsent as (_ & _ & H3). congruence. }
    unfold well_formed. simpl. repeat split; try done. eauto.
Qed.

Lemma well_formed_step c c' :
  well_formed c → step c = Some c' → well_formed c'.
Proof.
  intros Hwf. destruct c as [w ct]. unfold step. simpl.
  destruct ct as [[|e|output rest|status hs exc k]| |e]; try done.
  - intros [= <-]. unfold close_connection.
    pose proof (well_formed_send w _ Returned None None Hwf) as H.
    destruct (send_response_start w) as [[[]|e] w']; by apply H.
  - intros [= <-]. destruct Hwf as (Hm & Hsent & _). split; [done|].
    simpl in *. split; [|done].
    destruct (sent w); [|done]. eauto.
  - intros [= <-]. unfold loop_body.
    pose proof (well_formed_send w _ (Running rest) (Some output)
                  (Some true) Hwf) as H.
    destruct (send_response_start w) as [[[]|e] w']; by apply H.
  - destruct (start_response (inst w) status hs exc) as [r self] eqn:E.
    intros [= <-].
    apply start_response_keeps in E as [Hs Hkeep].
    destruct Hwf as (Hm & Hsent & _).
    split; [by apply Hkeep|]. simpl in *. split; [|done].
    destruct (sent w) as [|m0 bodies].
    + rewrite Hs. intros H. destruct (Hsent H) as [e He]. done.
    + by rewrite Hs.
Qed.

Lemma well_formed_steps it c :
  steps (start_config it) c → well_formed c.
Proof.
  revert c. apply rtc_ind_r; [apply well_formed_start|].
  intros c c' _ Hstep Hwf. by apply (well_formed_step c).
Qed.

(** No transition resets [response_started]. *)
Lemma response_started_step c c' :
  step c = Some c' →
  response_started (inst (now c)) = true →
  response_started (inst (now c')) = true.
Proof.
  destruct c as [w ct]. unfold step. simpl. intros Hstep Hs.
  destruct ct as [[|e|output rest|status hs exc k]| |e]; try done.
  - simplify_eq. unfold close_connection, send_response_start.
    by rewrite Hs.
  - by simplify_eq.
  - simplify_eq. unfold loop_body, send_response_start. by rewrite Hs.
  - destruct (start_response (inst w) status hs exc) as [r self] eqn:E.
    simplify_eq. simpl. apply start_response_keeps in E as [-> _]. done.
Qed.

Lemma response_started_steps c c' :
  steps c c' →
  response_started (inst (now c)) = true →
  response_started (inst (now c')) = true.
Proof.
  induction 1 as [|c c1 c' Hstep _ IH]; [done|].
  intros Hs. apply IH. by apply (response_started_step c).
Qed.

(** A start message is not a body message. *)
Lemma is_body_not_start (m : send_message) :
  is_body m = true → is_start m = false.
Proof. by destruct m. Qed.

Lemma count_starts_bodies (bodies : list send_message) :
  Forall (λ x, is_body x = true) bodies → count_starts bodies = 0%nat.
Proof.
  unfold count_starts. induction 1 as [|m l Hm _ IH]; [done|].
  rewrite filter_cons_False; [done|].
  rewrite is_body_not_start by done. done.
Qed.

Lemma well_formed_sent c :
  well_formed c →
  no_body_before_start (sent (now c))
  ∧ (count_starts (sent (now c)) ≤ 1)%nat
  ∧ (ctl c = Returned → count_starts (sent (now c)) = 1%nat).
Proof.
  intros (_ & Hsent & Hret).
  destruct (sent (now c)) as [|m bodies] eqn:Hw.
  { split; [by intros [|??] ??|]. split; [unfold count_starts; simpl; lia|].
    intros H. by destruct (Hret H). }
  destruct Hsent as (Hm & Hbodies & _).
  assert (count_starts (m :: bodies) = 1%nat) as Hcount.
  { unfold count_starts. rewrite filter_cons_True by done. simpl.
    f_equal. by apply count_starts_bodies. }
  split; [|split; [lia|done]].
  intros l1 x l2 E Hx. destruct l1 as [|m1 l1]; simplify_eq/=.
  - rewrite is_body_not_start in Hm; done.
  - exists m1. split; [left|done].
Qed.

(** The function [iterate] follows the transitions to their end. *)
Lemma iterate_steps w it :
  steps {| now := w; ctl := Running it |} (finish (iterate w it)).
Proof.
  revert w.
  induction it as [|e|output rest IH|status hs exc k IH]; intros w.
  - by apply rtc_once.
  - by apply rtc_once.
  - simpl. eapply rtc_l; [done|]. simpl.
    destruct (loop_body w output) as [[[]|e] w']; [apply IH|done].
  - simpl.
    destruct (start_response (inst w) status hs exc) as [r self] eqn:E.
    eapply rtc_l; [|apply IH]. unfold step. simpl. by rewrite E.
Qed.

(** C3, amended. In every configuration of every run of the loop, each body
    message sent comes after a start message, the start message has been
    sent at most once, and exactly once when the run has returned; along the
    run [response_started], once true, stays true. The same holds of what
    [__call__] has sent when it ends: at most one start message, no body
    message before it, and exactly one start message when [__call__] returns
    without raising. *)
Theorem response_start_invariant :
  (∀ it c c',
     steps (start_config it) c → steps c c' →
     no_body_before_start (sent (now c))
     ∧ (count_starts (sent (now c)) ≤ 1)%nat
     ∧ (ctl c = Returned → count_starts (sent (now c)) = 1%nat)
     ∧ (response_started (inst (now c)) = true →
        response_started (inst (now c')) = true))
  ∧ (∀ app sc msg,
       no_body_before_start (sent (call app sc msg).2)
       ∧ (count_starts (sent (call app sc msg).2) ≤ 1)%nat
       ∧ ((call app sc msg).1 = Ok () →
          count_starts (sent (call app sc msg).2) = 1%nat))
  ∧ (∀ it, steps (start_config it)
             (finish (iterate {| inst := new_instance; sent := [] |} it))).
Proof.
  split; [|split].
  - intros it c c' Hc Hc'.
    destruct (well_formed_sent c (well_formed_steps it c Hc)) as (?&?&?).
    eauto using response_started_steps.
  - intros app sc msg.
    assert (no_body_before_start [] ∧ (count_starts [] ≤ 1)%nat) as Hnil.
    { split; [by intros [|??] ??|unfold count_starts; simpl; lia]. }
    unfold call, run_wsgi_app.
    repeat case_decide; try (by destruct Hnil).
    destruct (build_environ sc msg) as [env|e]; [|by destruct Hnil].
    pose proof (well_formed_sent _
      (well_formed_steps _ _ (iterate_steps _ (app env)))) as (H1 & H2 & H3).
    destruct (iterate _ (app env)) as [[[]|e] w]; simpl in *;
      [eauto|repeat split; done].
  - intros it. apply iterate_steps.
Qed.

End invariant.

(** ** Concrete runs *)

(** The messages sent for [example_app]. *)
Lemma run_200_OK_witness :
  scope_type (example_scope []) = u "http"
  ∧ message_type example_request = u "http.request"
  ∧ (call example_app (example_scope []) example_request).1 = Ok ()
  ∧ sent (call example_app (example_scope []) example_request).2
    = [ http_response_start 200 [];
        http_response_body (Some (b "Hello, ")) (Some true);
        http_response_body (Some (b "world")) (Some true);
        http_response_body None None ].
Proof.
  assert (build_environ (example_scope []) example_request
          = Ok (example_environ [])) as Hb by (vm_compute; reflexivity).
  destruct (run_200_OK example_app (example_scope []) example_request
              (example_environ []) None
              (propagate (yields [b "Hello, "; b "world"] Stop))
              [b "Hello, "; b "world"]
              eq_refl eq_refl Hb eq_refl eq_refl) as (Hr & Hsent & _).
  split; [reflexivity|]. split; [reflexivity|]. split; [exact Hr|exact Hsent].
Defined.

(** C3 as the spec states it fails: when the application raises before it
    yields, the run ends having sent no start message. *)
Lemma start_message_not_sent :
  call failing_app (example_scope []) example_request
  = (Raise (Raised example_exception),
     {| inst := pending_instance; sent := [] |})
  ∧ count_starts
      (sent (call failing_app (example_scope []) example_request).2) = 0%nat
  ∧ count_starts
      (sent (call failing_app (example_scope []) example_request).2) ≠ 1%nat.
Proof. split; [|split]; vm_compute; done. Qed.

(** A run that returns has sent one start message. *)
Lemma response_start_invariant_witness :
  (call example_app (example_scope []) example_request).1 = Ok ()
  ∧ count_starts
      (sent (call example_app (example_scope []) example_request).2) = 1%nat.
Proof.
  assert ((call example_app (example_scope []) example_request).1 = Ok ())
    as Hr by (vm_compute; reflexivity).
  split; [exact Hr|].
  destruct response_start_invariant as (_ & Hcall & _).
  destruct (Hcall example_app (example_scope []) example_request)
    as (_ & _ & Hone).
  exact (Hone Hr).
Defined.

(** [silent_app] makes the run fail with nothing sent. *)
Lemma run_without_start_response_witness :
  scope_type (example_scope []) = u "http"
  ∧ message_type example_request = u "http.request"
  ∧ silent_app (example_environ []) = yields [b "Hello"] Stop
  ∧ call silent_app (example_scope []) example_request
    = (Raise (AttributeError
         "'WsgiToAsgiInstance' object has no attribute 'response_start'"),
       {| inst := {| response_started := true; response_start := None |};
          sent := [] |}).
Proof.
  assert (build_environ (example_scope []) example_request
          = Ok (example_environ [])) as Hb by (vm_compute; reflexivity).
  destruct (run_without_start_response silent_app (example_scope [])
              example_request (example_environ []) [b "Hello"]
              eq_refl eq_refl Hb eq_refl) as [Hcall _].
  split; [reflexivity|]. split; [reflexivity|]. split; [reflexivity|].
  exact Hcall.
Defined.

(** After the start message is sent, the exception of the error info is
    raised as it is. *)
Lemma start_response_reraises_witness :
  response_started started_instance = true
  ∧ start_response started_instance (u "500 Internal Server Error") []
      (Some (sys_exc_info example_exception))
    = (Raise (Raised example_exception), started_instance).
Proof.
  split; [reflexivity|].
  destruct (start_response_reraises started_instance
              (u "500 Internal Server Error") []
              (sys_exc_info example_exception) eq_refl)
    as (_ & _ & _ & Hsame & _).
  exact (Hsame example_exception eq_refl).
Defined.

(** A second call without error info before anything is sent. *)
Lemma start_response_twice_without_exc_info_witness :
  response_started pending_instance = false
  ∧ response_start pending_instance = Some (http_response_start 200 [])
  ∧ start_response pending_instance (u "404 Not Found") [] None
    = (Raise (ValueError
         "You cannot call start_response a second time without exc_info"),
       pending_instance).
Proof.
  split; [reflexivity|]. split; [reflexivity|].
  exact (start_response_twice_without_exc_info pending_instance
           (u "404 Not Found") [] (http_response_start 200 [])
           eq_refl eq_refl).
Defined.

(** A call without error info after the start message is sent. *)
Lemma start_response_after_start_raises_witness :
  response_started started_instance = true
  ∧ start_response started_instance (u "404 Not Found") [] None
    = (Raise (TypeError "'NoneType' object is not subscriptable"),
       started_instance).
Proof.
  split; [reflexivity|].
  exact (proj1 (proj2 (start_response_after_start_raises started_instance
                         (u "404 Not Found") [] None eq_refl))).
Defined.

(** A status without a space, and one whose first word is not a number. *)
Lemma start_response_status_witness :
  split_space (u "OK") = None
  ∧ (∃ e, start_response new_instance (u "OK") [] None
          = (Raise e, new_instance))
  ∧ int (u "abc") = None
  ∧ (∃ e, start_response new_instance (u "abc def") [] None
          = (Raise e, new_instance)).
Proof.
  assert (split_space (u "OK") = None) as Hno by (vm_compute; reflexivity).
  assert (int (u "abc") = None) as Hint by (vm_compute; reflexivity).
  split; [exact Hno|]. split; [|split; [exact Hint|]].
  - apply (proj1 (proj2 (start_response_status new_instance (u "OK") []
                           None))).
    apply split_space_None. exact Hno.
  - apply (proj2 (proj2 (start_response_status new_instance (u "abc def") []
                           None)) (u "abc") (u "def")).
    + vm_compute. reflexivity.
    + apply split_space_None. vm_compute. reflexivity.
    + exact Hint.
Defined.

(** Statuses that [start_response] accepts and rejects. *)
Example start_response_200 :
  start_response new_instance (u "200 OK") [] None
  = (Ok (), pending_instance).
Proof. vm_compute. reflexivity. Qed.

Example start_response_signed_status :
  start_response new_instance (u "+2_0_0 OK") [] None
  = (Ok (), pending_instance).
Proof. vm_compute. reflexivity. Qed.

Example start_response_no_reason :
  start_response new_instance (u "200") [] None
  = (Raise (ValueError "not enough values to unpack (expected 2, got 1)"),
     new_instance).
Proof. vm_compute. reflexivity. Qed.

(** ** More on [build_environ] *)

Section environ_more.

Implicit Types (sc : scope) (msg : message) (env : environ) (key : str).
Implicit Types (hs : list (bytes * bytes)).

Local Ltac keys_differ :=
  let H := fresh in intros H; vm_compute in H; discriminate H.

Local Ltac not_header_key :=
  let H := fresh in
  intros [H|[H|[? H]]]; vm_compute in H; discriminate H.

(** Opens the environ before the headers are folded, down to its inserts. *)
Local Ltac open_initial :=
  unfold add_client, add_server, initial_environ;
  rewrite !list_to_map_cons, list_to_map_nil;
  repeat case_match; simplify_eq/=;
  rewrite ?lookup_insert_ne by keys_differ.

Lemma forallb_ascii (bs : bytes) :
  forallb (λ c, Byte.to_N c <? 128) bs = true
  ↔ Forall (λ c, Byte.to_N c < 128) bs.
Proof.
  induction bs as [|c bs IH]; simpl; [by split|].
  rewrite andb_true_iff, Forall_cons, IH, N.ltb_lt. done.
Qed.

Lemma decode_ascii_Some (bs : bytes) (s : str) :
  decode_ascii bs = Some s ↔
  Forall (λ c, Byte.to_N c < 128) bs ∧ s = decode_latin1 bs.
Proof.
  unfold decode_ascii.
  destruct (forallb (λ c, Byte.to_N c <? 128) bs) eqn:E.
  - apply forallb_ascii in E. split; [by intros [= <-]|by intros [_ ->]].
  - split; [done|]. intros [Hall%forallb_ascii _]. congruence.
Qed.

(** A key that is no header key has in the environ the value it had before
    the headers were folded. *)
Lemma build_environ_fixed_key sc msg env key :
  build_environ sc msg = Ok env →
  ¬ header_key key →
  ∃ query, decode_ascii (query_string sc) = Some query
    ∧ env !! key
      = add_client sc (add_server sc (initial_environ sc msg query)) !! key.
Proof.
  intros Hb Hk. destruct (build_environ_lookup _ _ _ Hb) as (q & Hq & Hl).
  exists q. split; [done|]. by rewrite Hl, values_of_other, folded_nil.
Qed.

(** X1. [build_environ] returns exactly when every byte of the query string
    is below 0x80, and then [QUERY_STRING] holds the code points of these
    bytes; otherwise it raises [UnicodeDecodeError]. No header list makes it
    raise. *)
Theorem build_environ_raises_iff sc msg :
  (Forall (λ c, Byte.to_N c < 128) (query_string sc) →
   ∃ env, build_environ sc msg = Ok env
          ∧ env !! u "QUERY_STRING"
            = Some (VStr (decode_latin1 (query_string sc))))
  ∧ (¬ Forall (λ c, Byte.to_N c < 128) (query_string sc) →
     build_environ sc msg = Raise UnicodeDecodeError).
Proof.
  pose proof (build_environ_spec sc msg) as Hspec.
  destruct (decode_ascii (query_string sc)) as [q|] eqn:Hq.
  - apply decode_ascii_Some in Hq as [Hall ->].
    split; [|done]. intros _. destruct Hspec as (env & Hb & Hlook).
    exists env. split; [done|].
    rewrite Hlook, values_of_other, folded_nil by not_header_key.
    open_initial; apply lookup_insert_eq.
  - split; [|done]. intros Hall.
    assert (decode_ascii (query_string sc)
            = Some (decode_latin1 (query_string sc))) as E
      by (by apply decode_ascii_Some).
    congruence.
Qed.

(** X2. [SERVER_NAME] and [SERVER_PORT] come from the server address of the
    scope, the port through [str]; without one they are "localhost" and
    "80". No header changes them. *)
Theorem build_environ_server sc msg env :
  build_environ sc msg = Ok env →
  env !! u "SERVER_NAME"
  = Some (VStr match server sc with
               | Some (host, _) => host
               | None => u "localhost"
               end)
  ∧ env !! u "SERVER_PORT"
    = Some (VStr match server sc with
                 | Some (_, port) => str_of_port port
                 | None => u "80"
                 end).
Proof.
  intros Hb. split.
  - destruct (build_environ_fixed_key sc msg env (u "SERVER_NAME") Hb)
      as (q & _ & ->); [not_header_key|].
    open_initial; apply lookup_insert_eq.
  - destruct (build_environ_fixed_key sc msg env (u "SERVER_PORT") Hb)
      as (q & _ & ->); [not_header_key|].
    open_initial; apply lookup_insert_eq.
Qed.

(** X3. [REMOTE_ADDR] is a key of the environ exactly when the scope has a
    client address, and then it holds the host of that address; the port of
    the client is stored nowhere: [REMOTE_PORT] is not a key. *)
Theorem build_environ_client sc msg env :
  build_environ sc msg = Ok env →
  env !! u "REMOTE_ADDR" = (λ a, VStr a.1) <$> client sc
  ∧ env !! u "REMOTE_PORT" = None.
Proof.
  intros Hb. split.
  - destruct (build_environ_fixed_key sc msg env (u "REMOTE_ADDR") Hb)
      as (q & _ & ->); [not_header_key|].
    open_initial; first [apply lookup_insert_eq | apply lookup_empty].
  - destruct (build_environ_fixed_key sc msg env (u "REMOTE_PORT") Hb)
      as (q & _ & ->); [not_header_key|].
    open_initial; apply lookup_empty.
Qed.

(** X4. The request body and the constant entries: [wsgi.input] holds the
    body of the message, or no bytes when the message has none; [wsgi.errors]
    is empty; [SCRIPT_NAME] is the empty string; the version is (1, 0);
    [wsgi.multithread] and [wsgi.multiprocess] are true and [wsgi.run_once]
    is false. *)
Theorem build_environ_wsgi_keys sc msg env :
  build_environ sc msg = Ok env →
  env !! u "wsgi.input" = Some (VBytesIO (default [] (message_body msg)))
  ∧ env !! u "wsgi.errors" = Some (VBytesIO [])
  ∧ env !! u "SCRIPT_NAME" = Some (VStr [])
  ∧ env !! u "wsgi.version" = Some (VVersion 1 0)
  ∧ env !! u "wsgi.multithread" = Some (VBool true)
  ∧ env !! u "wsgi.multiprocess" = Some (VBool true)
  ∧ env !! u "wsgi.run_once" = Some (VBool false).
Proof.
  intros Hb.
  repeat split;
    match goal with
    | |- env !! ?k = _ =>
        destruct (build_environ_fixed_key sc msg env k Hb)
          as (q & _ & ->); [not_header_key|]
    end;
    open_initial; apply lookup_insert_eq.
Qed.

(** X5. The headers of the scope change no key other than [CONTENT_LENGTH],
    [CONTENT_TYPE] and the keys that start with [HTTP_]: two scopes that
    differ only in their headers give environs that agree on every other
    key. *)
Theorem headers_keep_fixed_keys sc msg hs env env' key :
  build_environ sc msg = Ok env →
  build_environ (with_headers sc hs) msg = Ok env' →
  ¬ header_key key →
  env' !! key = env !! key.
Proof.
  intros Hb Hb' Hk.
  destruct (build_environ_fixed_key _ _ _ _ Hb Hk) as (q & Hq & ->).
  destruct (build_environ_fixed_key _ _ _ _ Hb' Hk) as (q' & Hq' & ->).
  simpl in Hq'. by simplify_eq.
Qed.

Lemma corrected_name_content (name : bytes) :
  (corrected_name name = u "CONTENT_LENGTH" ↔ name = b "content-length")
  ∧ (corrected_name name = u "CONTENT_TYPE" ↔ name = b "content-type").
Proof.
  rewrite corrected_name_eq.
  repeat case_decide; subst; split; split; try done;
    try (intros H; vm_compute in H; discriminate H).
Qed.

Lemma values_of_content hs :
  values_of (u "CONTENT_LENGTH") hs = values_named (b "content-length") hs
  ∧ values_of (u "CONTENT_TYPE") hs = values_named (b "content-type") hs.
Proof.
  unfold values_of, values_named.
  induction hs as [|[name value] hs [IH1 IH2]]; [done|].
  destruct (corrected_name_content name) as [H1 H2].
  rewrite !filter_cons. simpl. split.
  - destruct (decide (corrected_name name = u "CONTENT_LENGTH")) as [E|E],
      (decide (name = b "content-length")) as [E'|E']; simpl;
      [f_equal; exact IH1|tauto|tauto|exact IH1].
  - destruct (decide (corrected_name name = u "CONTENT_TYPE")) as [E|E],
      (decide (name = b "content-type")) as [E'|E']; simpl;
      [f_equal; exact IH2|tauto|tauto|exact IH2].
Qed.

(** X6. [CONTENT_LENGTH] (respectively [CONTENT_TYPE]) is a key of the
    environ exactly when a header is named [content-length] (respectively
    [content-type]) byte for byte, and it holds the values of these headers
    only, joined by commas; no other spelling of the name reaches the key. *)
Theorem content_keys_from_exact_names sc msg env :
  build_environ sc msg = Ok env →
  let hs := default [] (headers sc) in
  env !! u "CONTENT_LENGTH"
  = match values_named (b "content-length") hs with
    | [] => None
    | vs => Some (VStr (comma_join vs))
    end
  ∧ env !! u "CONTENT_TYPE"
    = match values_named (b "content-type") hs with
      | [] => None
      | vs => Some (VStr (comma_join vs))
      end.
Proof.
  intros Hb hs.
  destruct (build_environ_lookup _ _ _ Hb) as (q & _ & Hlook).
  destruct (values_of_content hs) as [E1 E2]. fold hs in Hlook.
  split; rewrite Hlook, initial_environ_header_key
    by (unfold header_key; eauto).
  - rewrite E1. generalize (values_named (b "content-length") hs).
    by intros [|v l].
  - rewrite E2. generalize (values_named (b "content-type") hs).
    by intros [|v l].
Qed.

Lemma upper_cp_not_lowercase (c d : codepoint) :
  d ∈ upper_cp c → ¬ lowercase_letter d.
Proof.
  unfold upper_cp, lowercase_letter.
  repeat case_match; intros Hd;
    repeat (apply elem_of_cons in Hd as [->|Hd]);
    try (by apply elem_of_nil in Hd);
    repeat match goal with
    | H : _ && _ = true |- _ => apply andb_true_iff in H as [??]
    | H : _ && _ = false |- _ => apply andb_false_iff in H
    | H : negb _ = true |- _ => apply negb_true_iff in H
    | H : (_ <=? _) = true |- _ => apply N.leb_le in H
    | H : (_ <=? _) = false |- _ => apply N.leb_gt in H
    | H : (_ =? _) = true |- _ => apply N.eqb_eq in H
    | H : (_ =? _) = false |- _ => apply N.eqb_neq in H
    end; try lia.
  all: intros [??]; repeat match goal with
    | H : _ ∨ _ |- _ => destruct H
    | H : (_ <=? _) = false |- _ => apply N.leb_gt in H
    end; lia.
Qed.

(** X7. Whatever the name of a header, its environ key holds no "-" and no
    ASCII lowercase letter. *)
Theorem corrected_name_charset (name : bytes) (c : codepoint) :
  c ∈ corrected_name name → c ≠ 45 ∧ ¬ lowercase_letter c.
Proof.
  rewrite corrected_name_eq. unfold lowercase_letter.
  assert (∀ l : str, Forall (λ d, d ≠ 45 ∧ ¬ (97 ≤ d ∧ d ≤ 122)) l →
                     c ∈ l → c ≠ 45 ∧ ¬ (97 ≤ c ∧ c ≤ 122)) as Hin.
  { intros l Hl Hc. by apply (proj1 (Forall_forall _ _) Hl). }
  assert (∀ s : string,
            forallb (λ d, negb (d =? 45) && negb ((97 <=? d) && (d <=? 122)))
                    (u s) = true →
            Forall (λ d, d ≠ 45 ∧ ¬ (97 ≤ d ∧ d ≤ 122)) (u s)) as Hlit.
  { intros s Hs. apply Forall_forall. intros d Hd%list_elem_of_In.
    apply (proj1 (forallb_forall _ _) Hs) in Hd.
    apply andb_true_iff in Hd as [H1%negb_true_iff H2%negb_true_iff].
    apply N.eqb_neq in H1. split; [done|]. intros [H3%N.leb_le H4%N.leb_le].
    by rewrite H3, H4 in H2. }
  repeat case_decide.
  - apply Hin, Hlit. vm_compute. reflexivity.
  - apply Hin, Hlit. vm_compute. reflexivity.
  - intros [Hc|Hc]%elem_of_app.
    + revert Hc. apply Hin, Hlit. vm_compute. reflexivity.
    + unfold replace in Hc. apply list_elem_of_fmap in Hc as (d & -> & Hd).
      unfold upper in Hd. apply list_elem_of_bind in Hd as (c0 & Hd & _).
      apply upper_cp_not_lowercase in Hd. unfold lowercase_letter in Hd.
      clear Hin Hlit. destruct (N.eqb_spec d 45) as [E|E]; [split; lia|done].
Qed.

End environ_more.

(** ** More on [start_response] *)

Section start_response_more.

Implicit Types (self : instance) (status code reason : str).
Implicit Types (hs : list (str * str)) (enc : list (bytes * bytes)).


Lemma make_response_start_headers status hs n enc :
  make_response_start status hs = Ok (http_response_start n enc) →
  encode_headers hs = Some enc.
Proof.
  unfold make_response_start.
  destruct (split_space status) as [[code reason]|]; simpl; [|done].
  destruct (int code) as [k|]; simpl; [|done].
  destruct (encode_headers hs) as [enc'|]; simpl; [|done].
  by intros [= _ <-].
Qed.

(** A call that neither guard stops stores what [make_response_start]
    builds. *)
Lemma start_response_not_started self status hs exc m :
  response_started self = false →
  response_start self = None ∨ is_Some exc →
  make_response_start status hs = Ok m →
  start_response self status hs exc
  = (Ok (), {| response_started := false; response_start := Some m |}).
Proof.
  intros Hs Hfree Hm. unfold start_response. rewrite Hs, Hm.
  destruct (response_start self) as [m0|], exc as [ei|]; try done.
  destruct Hfree as [?|[? ?]]; done.
Qed.

(** The same when [make_response_start] raises. *)
Lemma start_response_not_started_raise self status hs exc e :
  response_started self = false →
  response_start self = None ∨ is_Some exc →
  make_response_start status hs = Raise e →
  start_response self status hs exc = (Raise e, self).
Proof.
  intros Hs Hfree Hm. unfold start_response. rewrite Hs, Hm.
  destruct (response_start self) as [m0|], exc as [ei|]; try done.
  destruct Hfree as [?|[? ?]]; done.
Qed.


Lemma lower_encode_char (c : codepoint) (d : byte) :
  (if (65 <=? c) && (c <=? 90) then Byte.of_N (c + 32)
   else if c <? 128 then Byte.of_N c
   else if c =? 8490 then Byte.of_N 107
   else None) = Some d →
  Byte.to_N d = lower_cp c ∧ ¬ uppercase_letter (Byte.to_N d)
  ∧ (c < 128 ∨ c = 8490).
Proof.
  unfold lower_cp, uppercase_letter.
  destruct ((65 <=? c) && (c <=? 90)) eqn:Hup.
  - intros ->%Byte.to_of_N.
    apply andb_true_iff in Hup as [?%N.leb_le ?%N.leb_le]. lia.
  - destruct (N.ltb_spec c 128) as [Hlt|Hge].
    + intros ->%Byte.to_of_N.
      destruct (N.eqb_spec c 8490); [lia|].
      apply andb_false_iff in Hup as [?%N.leb_gt|?%N.leb_gt]; lia.
    + destruct (N.eqb_spec c 8490) as [->|]; [|done].
      intros ->%Byte.to_of_N. lia.
Qed.

Lemma lower_encode_ascii_Some (name : str) (n : bytes) :
  lower_encode_ascii name = Some n →
  decode_latin1 n = lower_cp <$> name
  ∧ Forall (λ d, ¬ uppercase_letter (Byte.to_N d)) n
  ∧ Forall (λ c, c < 128 ∨ c = 8490) name.
Proof.
  unfold lower_encode_ascii. intros H%mapM_Some.
  induction H as [|c d name n Hcd _ IH]; [done|].
  apply lower_encode_char in Hcd as (E & Hup & Hc).
  destruct IH as (IH1 & IH2 & IH3).
  split; [|split; by constructor].
  unfold decode_latin1 in *. rewrite !fmap_cons. by f_equal.
Qed.

Lemma encode_ascii_Some (s : str) (v : bytes) :
  encode_ascii s = Some v →
  decode_latin1 v = s ∧ Forall (λ c, c < 128) s.
Proof.
  unfold encode_ascii. intros H%mapM_Some.
  induction H as [|c d s v Hcd _ [IH1 IH2]]; [done|].
  destruct (N.ltb_spec c 128) as [Hlt|]; [|done].
  apply Byte.to_of_N in Hcd.
  split; [|by constructor].
  unfold decode_latin1 in *. rewrite fmap_cons. by f_equal.
Qed.

Lemma encode_headers_Some hs enc :
  encode_headers hs = Some enc →
  Forall2 (λ h e,
             decode_latin1 e.1 = lower_cp <$> h.1
             ∧ Forall (λ d, ¬ uppercase_letter (Byte.to_N d)) e.1
             ∧ decode_latin1 e.2 = h.2
             ∧ Forall (λ c, c < 128 ∨ c = 8490) h.1
             ∧ Forall (λ c, c < 128) h.2) hs enc.
Proof.
  unfold encode_headers. intros H%mapM_Some.
  induction H as [|[name value] e hs enc He _ IH]; constructor; [|done].
  destruct (lower_encode_ascii name) as [n|] eqn:Hn; simpl in He; [|done].
  destruct (encode_ascii value) as [v|] eqn:Hv; simpl in He; [|done].
  injection He as <-. simpl.
  apply lower_encode_ascii_Some in Hn as (?&?&?).
  apply encode_ascii_Some in Hv as [??]. done.
Qed.

(** X9. When [start_response] returns, the stored message holds one header
    per header given, in the same order; each stored name is the given name
    with A-Z turned into a-z (and KELVIN SIGN into "k"), so it holds no
    uppercase letter, and each stored value decodes back to the given
    value. *)
Theorem start_response_headers self status hs exc self' :
  start_response self status hs exc = (Ok (), self') →
  ∃ n enc,
    response_start self' = Some (http_response_start n enc)
    ∧ Forall2 (λ h e,
                 decode_latin1 e.1 = lower_cp <$> h.1
                 ∧ Forall (λ d, ¬ uppercase_letter (Byte.to_N d)) e.1
                 ∧ decode_latin1 e.2 = h.2) hs enc.
Proof.
  intros E.
  destruct (start_response_cases self status hs exc)
    as [(m & E' & Hm & _)|[e E']]; rewrite E' in E; [|done].
  injection E as <-.
  destruct (make_response_start_Ok _ _ _ Hm)
    as (code & reason & n & enc & _ & _ & ->).
  apply make_response_start_headers, encode_headers_Some in Hm.
  exists n, enc. split; [done|].
  eapply Forall2_impl; [exact Hm|]. by intros h e (?&?&?&_).
Qed.

(** X10. A call that would otherwise store a start message raises
    [UnicodeEncodeError], and stores nothing, when a header value holds a
    code point of 0x80 or above, or a header name holds one other than
    KELVIN SIGN. *)
Theorem start_response_non_ascii_header self code reason n hs exc :
  response_started self = false →
  response_start self = None ∨ is_Some exc →
  32 ∉ code → int code = Some n →
  (∃ name value c, (name, value) ∈ hs ∧ 128 ≤ c
                   ∧ (c ∈ value ∨ c ∈ name ∧ c ≠ 8490)) →
  start_response self (code ++ (32 :: reason)) hs exc
  = (Raise UnicodeEncodeError, self).
Proof.
  intros Hs Hfree Hcode Hint (name & value & c & Hin & Hc & Hwhere).
  apply start_response_not_started_raise; [done..|].
  unfold make_response_start.
  rewrite (proj2 (split_space_Some _ code reason)) by done. simpl.
  rewrite Hint. simpl.
  destruct (encode_headers hs) as [enc|] eqn:Henc; [|done].
  exfalso. apply encode_headers_Some in Henc.
  apply list_elem_of_lookup in Hin as [i Hi].
  destruct (Forall2_lookup_l _ _ _ _ _ Henc Hi)
    as (e & _ & _ & _ & _ & Hname & Hvalue).
  simpl in *. destruct Hwhere as [Hv|[Hn Hk]].
  - apply (proj1 (Forall_forall _ _) Hvalue) in Hv. lia.
  - apply (proj1 (Forall_forall _ _) Hname) in Hn. lia.
Qed.

End start_response_more.

(** ** More on the response loop *)

Section run_more.

Implicit Types (w : world) (it rest : wsgi_iter) (chunks : list bytes).
Implicit Types (c : config) (app : application) (sc : scope) (msg : message).

(** With a start message stored and not yet sent, the first chunk sends it;
    the run then goes on with the response started. *)
Lemma iterate_yields_first w output chunks rest m :
  response_started (inst w) = false →
  response_start (inst w) = Some m →
  iterate w (yields (output :: chunks) rest)
  = iterate
      {| inst := {| response_started := true; response_start := Some m |};
         sent := sent w ++ m :: (chunk_message <$> output :: chunks) |}
      rest.
Proof.
  intros Hs Hm. simpl.
  unfold loop_body, send_response_start. rewrite Hs. simpl. rewrite Hm.
  rewrite iterate_yields_started by done. simpl.
  unfold sync_send; simpl. by rewrite <- !app_assoc.
Qed.

(** X11. Whenever [__call__] has sent a message, the scope was an "http"
    scope, the first message was an "http.request" message, the environ was
    built, and the first message sent is a start message: a connection
    refused by a guard leaves nothing on the wire. *)
Theorem sent_implies_accepted app sc msg :
  sent (call app sc msg).2 ≠ [] →
  scope_type sc = u "http"
  ∧ message_type msg = u "http.request"
  ∧ (∃ env, build_environ sc msg = Ok env)
  ∧ ∃ status hs tail, sent (call app sc msg).2
                      = http_response_start status hs :: tail.
Proof.
  unfold call, run_wsgi_app.
  repeat case_decide; try done.
  destruct (build_environ sc msg) as [env|e] eqn:Hb; [|done].
  intros Hsent. repeat split; eauto.
  pose proof (well_formed_steps _ _ (iterate_steps _ (app env)))
    as (_ & Hshape & _).
  destruct (iterate _ (app env)) as [[[]|e] w]; simpl in *;
    destruct (sent w) as [|[status hs|] rest]; try done; eauto;
    by destruct Hshape.
Qed.

(** The last message is not a chunk message and not a start message. *)
Lemma iterate_last_message w it r w' :
  (∀ m, response_start (inst w) = Some m → is_start m = true) →
  last_message ∉ sent w →
  iterate w it = (r, w') →
  match r with
  | Ok _ => ∃ l, sent w' = l ++ [last_message] ∧ last_message ∉ l
  | Raise _ => last_message ∉ sent w'
  end.
Proof.
  revert w.
  induction it as [|e|output rest IH|status hs exc k IH];
    intros w Hm Hsent; simpl.
  - unfold close_connection.
    destruct (send_response_start_cases w)
      as [[Hs ->]|[(m & Hs & Hst & ->)|(e & Hs & Hst & ->)]];
      intros [= <- <-]; simpl; eauto.
    exists (sent w ++ [m]). split; [done|].
    apply not_elem_of_app. split; [done|].
    apply not_elem_of_cons. split; [|apply not_elem_of_nil].
    intros <-. by apply Hm in Hst.
  - by intros [= <- <-].
  - unfold loop_body.
    destruct (send_response_start_cases w)
      as [[Hs ->]|[(m & Hs & Hst & ->)|(e & Hs & Hst & ->)]].
    + apply IH; [done|]. simpl.
      apply not_elem_of_app. split; [done|].
      apply not_elem_of_cons. split; [done|apply not_elem_of_nil].
    + apply IH; simpl; [by intros ? [= <-]; apply Hm|].
      rewrite <- app_assoc. apply not_elem_of_app. split; [done|].
      apply not_elem_of_cons. split; [intros <-; by apply Hm in Hst|].
      apply not_elem_of_cons. split; [done|apply not_elem_of_nil].
    + by intros [= <- <-].
  - destruct (start_response (inst w) status hs exc) as [r0 self] eqn:E.
    apply start_response_keeps in E as [_ Hkeep].
    apply IH; simpl; [by apply Hkeep|done].
Qed.

(** X12. [__call__] returns without raising exactly when the last message
    ([http.response.body] with neither [body] nor [more_body]) has been sent;
    it is then the last message sent and is sent once. A run that raises
    never sends it. *)
Theorem last_message_iff_returns app sc msg :
  ((call app sc msg).1 = Ok () ↔ last_message ∈ sent (call app sc msg).2)
  ∧ ((call app sc msg).1 = Ok () →
     ∃ l, sent (call app sc msg).2 = l ++ [last_message]
          ∧ last_message ∉ l).
Proof.
  assert (match (call app sc msg).1 with
          | Ok _ => ∃ l, sent (call app sc msg).2 = l ++ [last_message]
                         ∧ last_message ∉ l
          | Raise _ => last_message ∉ sent (call app sc msg).2
          end) as H.
  { unfold call, run_wsgi_app.
    repeat case_decide; try apply not_elem_of_nil.
    destruct (build_environ sc msg) as [env|e]; [|apply not_elem_of_nil].
    destruct (iterate _ (app env)) as [r w'] eqn:E.
    by apply iterate_last_message in E; [|done|apply not_elem_of_nil]. }
  destruct (call app sc msg) as [[[]|e] w]; simpl in *.
  - destruct H as (l & -> & Hl). split; [|eauto]. split; [|done].
    intros _. apply elem_of_app. right. left.
  - split; [|done]. by split.
Qed.

(** While the response is started, no transition changes the stored start
    message. *)
Lemma response_start_frozen_step c c' :
  step c = Some c' →
  response_started (inst (now c)) = true →
  response_start (inst (now c')) = response_start (inst (now c)).
Proof.
  destruct c as [w ct]. unfold step. simpl. intros Hstep Hs.
  destruct ct as [[|e|output rest|status hs exc k]| |e]; try done.
  - simplify_eq. unfold close_connection, send_response_start.
    by rewrite Hs.
  - by simplify_eq.
  - simplify_eq. unfold loop_body, send_response_start. by rewrite Hs.
  - unfold start_response in Hstep. rewrite Hs in Hstep.
    destruct exc; by simplify_eq.
Qed.

(** No transition takes back or reorders what was sent. *)
Lemma sent_prefix_step c c' :
  step c = Some c' → sent (now c) `prefix_of` sent (now c').
Proof.
  destruct c as [w ct]. unfold step. simpl. intros Hstep.
  destruct ct as [[|e|output rest|status hs exc k]| |e]; try done.
  - simplify_eq. unfold close_connection.
    destruct (send_response_start_cases w)
      as [[Hs ->]|[(m & Hs & Hst & ->)|(e & Hs & Hst & ->)]]; simpl;
      [by eexists|rewrite <- app_assoc; by eexists|done].
  - by simplify_eq.
  - simplify_eq. unfold loop_body.
    destruct (send_response_start_cases w)
      as [[Hs ->]|[(m & Hs & Hst & ->)|(e & Hs & Hst & ->)]]; simpl;
      [by eexists|rewrite <- app_assoc; by eexists|done].
  - destruct (start_response (inst w) status hs exc) as [r self].
    by simplify_eq.
Qed.

(** The first message sent is the stored start message. *)
Lemma sent_head_step c c' :
  well_formed c →
  step c = Some c' →
  (∀ m tail, sent (now c) = m :: tail →
             response_start (inst (now c)) = Some m) →
  ∀ m tail, sent (now c') = m :: tail →
            response_start (inst (now c')) = Some m.
Proof.
  intros Hwf Hstep Hhead m rest Hsent.
  destruct (sent (now c)) as [|m0 rest0] eqn:Hc.
  - destruct Hwf as (_ & Hshape & _). rewrite Hc in Hshape.
    destruct c as [w ct]. unfold step in Hstep. simpl in *.
    destruct ct as [[|e|output rest1|status hs exc k]| |e]; try done.
    + unfold close_connection in Hstep.
      destruct (send_response_start_cases w)
        as [[Hs E]|[(m1 & Hs & Hst & E)|(e & Hs & Hst & E)]];
        rewrite E in Hstep; simplify_eq/=.
      * by destruct (Hshape Hs).
      * rewrite Hc in Hsent. by simplify_eq/=.
      * congruence.
    + simplify_eq/=. congruence.
    + unfold loop_body in Hstep.
      destruct (send_response_start_cases w)
        as [[Hs E]|[(m1 & Hs & Hst & E)|(e & Hs & Hst & E)]];
        rewrite E in Hstep; simplify_eq/=.
      * by destruct (Hshape Hs).
      * rewrite Hc in Hsent. by simplify_eq/=.
      * congruence.
    + destruct (start_response (inst w) status hs exc) as [r self].
      simplify_eq/=. congruence.
  - destruct Hwf as (_ & Hshape & _). rewrite Hc in Hshape.
    destruct Hshape as (_ & _ & Hs).
    rewrite (response_start_frozen_step c c') by done.
    destruct (sent_prefix_step c c' Hstep) as [more E].
    rewrite Hc in E. rewrite E in Hsent. simplify_eq/=. eauto.
Qed.

(** X13. In every configuration of a run, the first message sent is the
    start message that the instance stores; once the response is started the
    stored start message never changes; and what has been sent stays sent,
    in the same order. *)
Theorem sent_start_is_stored it c c' :
  steps (start_config it) c → steps c c' →
  (∀ m tail, sent (now c) = m :: tail →
             response_start (inst (now c)) = Some m)
  ∧ (response_started (inst (now c)) = true →
     response_start (inst (now c')) = response_start (inst (now c)))
  ∧ sent (now c) `prefix_of` sent (now c').
Proof.
  intros Hc Hc'. split; [|split].
  - revert c Hc Hc'. intros c Hc _. revert c Hc.
    apply (rtc_ind_r (λ c, ∀ m tail, sent (now c) = m :: tail →
                           response_start (inst (now c)) = Some m)).
    + by intros m rest.
    + intros c1 c2 Hreach Hstep IH.
      by apply (sent_head_step c1 c2); [apply (well_formed_steps it)|..].
  - clear Hc. induction Hc' as [|c c1 c' Hstep _ IH]; [done|].
    intros Hs. rewrite IH by (by apply (response_started_step c)).
    by apply response_start_frozen_step.
  - clear Hc. induction Hc' as [|c c1 c' Hstep _ IH]; [done|].
    etrans; [by apply sent_prefix_step|done].
Qed.

(** X14. When the application calls [start_response] a second time, with
    error info, before it yields its first chunk, the second start message
    replaces the first: only the second is sent, followed by the chunks and
    the last message. *)
Theorem second_call_replaces app sc msg env s1 h1 e1 m1 s2 h2 ei m2 chunks :
  scope_type sc = u "http" →
  message_type msg = u "http.request" →
  build_environ sc msg = Ok env →
  app env = StartResponse s1 h1 e1
              (propagate (StartResponse s2 h2 (Some ei)
                            (propagate (yields chunks Stop)))) →
  make_response_start s1 h1 = Ok m1 →
  make_response_start s2 h2 = Ok m2 →
  call app sc msg
  = (Ok (),
     {| inst := {| response_started := true; response_start := Some m2 |};
        sent := m2 :: (chunk_message <$> chunks) ++ [last_message] |}).
Proof.
  intros Ht Hm Hb Happ H1 H2.
  rewrite (call_http app sc msg env) by done.
  rewrite Happ. cbn [iterate inst sent].
  rewrite (start_response_not_started _ _ _ _ m1) by (done || by left).
  cbn [propagate iterate inst sent].
  rewrite (start_response_not_started _ _ _ _ m2) by (done || by right).
  cbn [propagate].
  by rewrite (iterate_yields_pending _ _ m2).
Qed.

(** X15. When the application calls [start_response] with error info after
    it has yielded a chunk, the run raises the exception of the error info;
    the start message and the chunks yielded so far have been sent and the
    last message is not sent, whatever the application would do next. *)
Theorem error_after_first_chunk app sc msg env s1 h1 e1 m1 output chunks
    s2 h2 ei k :
  scope_type sc = u "http" →
  message_type msg = u "http.request" →
  build_environ sc msg = Ok env →
  app env = StartResponse s1 h1 e1
              (propagate (yields (output :: chunks)
                            (StartResponse s2 h2 (Some ei) (propagate k)))) →
  make_response_start s1 h1 = Ok m1 →
  call app sc msg
  = (Raise (Raised (with_traceback (exc_value ei) (exc_tb ei))),
     {| inst := {| response_started := true; response_start := Some m1 |};
        sent := m1 :: (chunk_message <$> output :: chunks) |}).
Proof.
  intros Ht Hm Hb Happ H1.
  rewrite (call_http app sc msg env) by done.
  rewrite Happ. cbn [iterate inst sent].
  rewrite (start_response_not_started _ _ _ _ m1) by (done || by left).
  cbn [propagate].
  by rewrite (iterate_yields_first _ _ _ _ m1).
Qed.

(** X16. When the application raises after a successful [start_response],
    the exception leaves [__call__] as it is. If no chunk was yielded before,
    nothing has been sent, not even the start message; otherwise the start
    message and the chunks yielded have been sent. The last message is not
    sent. *)
Theorem application_raises app sc msg env s1 h1 e1 m1 chunks e :
  scope_type sc = u "http" →
  message_type msg = u "http.request" →
  build_environ sc msg = Ok env →
  app env = StartResponse s1 h1 e1 (propagate (yields chunks (Throw e))) →
  make_response_start s1 h1 = Ok m1 →
  call app sc msg
  = (Raise e,
     match chunks with
     | [] =>
         {| inst := {| response_started := false;
                       response_start := Some m1 |};
            sent := [] |}
     | _ =>
         {| inst := {| response_started := true;
                       response_start := Some m1 |};
            sent := m1 :: (chunk_message <$> chunks) |}
     end).
Proof.
  intros Ht Hm Hb Happ H1.
  rewrite (call_http app sc msg env) by done.
  rewrite Happ. cbn [iterate inst sent].
  rewrite (start_response_not_started _ _ _ _ m1) by (done || by left).
  cbn [propagate].
  destruct chunks as [|output chunks]; [done|].
  by rewrite (iterate_yields_first _ _ _ _ m1).
Qed.

(** X17. When the application yields a chunk before it has called
    [start_response], the run raises [AttributeError] at that chunk and
    sends nothing, whatever the application would do next, a later call of
    [start_response] included. *)
Theorem chunk_before_start_response app sc msg env output rest :
  scope_type sc = u "http" →
  message_type msg = u "http.request" →
  build_environ sc msg = Ok env →
  app env = Yield output rest →
  call app sc msg
  = (Raise (AttributeError
       "'WsgiToAsgiInstance' object has no attribute 'response_start'"),
     {| inst := {| response_started := true; response_start := None |};
        sent := [] |}).
Proof.
  intros Ht Hm Hb Happ.
  rewrite (call_http app sc msg env) by done.
  by rewrite Happ.
Qed.

End run_more.

(** ** More concrete runs *)

(** A query string with the byte 0xff makes [build_environ] raise. *)
Lemma build_environ_raises_iff_witness :
  ¬ Forall (λ c, Byte.to_N c < 128) (query_string non_ascii_scope)
  ∧ build_environ non_ascii_scope example_request = Raise UnicodeDecodeError.
Proof.
  assert (¬ Forall (λ c, Byte.to_N c < 128) (query_string non_ascii_scope))
    as Hq.
  { intros H. apply Forall_cons in H as [H _]. vm_compute in H.
    discriminate H. }
  split; [exact Hq|].
  exact (proj2 (build_environ_raises_iff non_ascii_scope example_request) Hq).
Defined.

(** A header named [server-name] does not change [SERVER_NAME]. *)
Lemma build_environ_server_witness :
  build_environ server_scope post_request
  = Ok (environ_of server_scope post_request)
  ∧ environ_of server_scope post_request !! u "SERVER_NAME"
    = Some (VStr (u "example.org"))
  ∧ environ_of server_scope post_request !! u "SERVER_PORT"
    = Some (VStr (u "8443")).
Proof.
  assert (build_environ server_scope post_request
          = Ok (environ_of server_scope post_request)) as Hb
    by (vm_compute; reflexivity).
  split; [exact Hb|].
  exact (build_environ_server server_scope post_request
           (environ_of server_scope post_request) Hb).
Defined.

(** The client of the example scope gives [REMOTE_ADDR] and no port. *)
Lemma build_environ_client_witness :
  build_environ (example_scope []) example_request = Ok (example_environ [])
  ∧ example_environ [] !! u "REMOTE_ADDR" = Some (VStr (u "10.0.0.1"))
  ∧ example_environ [] !! u "REMOTE_PORT" = None.
Proof.
  assert (build_environ (example_scope []) example_request
          = Ok (example_environ [])) as Hb by (vm_compute; reflexivity).
  split; [exact Hb|].
  exact (build_environ_client (example_scope []) example_request
           (example_environ []) Hb).
Defined.

(** The body of a POST request is the content of [wsgi.input]. *)
Lemma build_environ_wsgi_keys_witness :
  build_environ server_scope post_request
  = Ok (environ_of server_scope post_request)
  ∧ environ_of server_scope post_request !! u "wsgi.input"
    = Some (VBytesIO (b "a=1&b=2"))
  ∧ environ_of server_scope post_request !! u "wsgi.run_once"
    = Some (VBool false).
Proof.
  assert (build_environ server_scope post_request
          = Ok (environ_of server_scope post_request)) as Hb
    by (vm_compute; reflexivity).
  destruct (build_environ_wsgi_keys server_scope post_request
              (environ_of server_scope post_request) Hb)
    as (Hinput & _ & _ & _ & _ & _ & Honce).
  split; [exact Hb|]. split; [exact Hinput|exact Honce].
Defined.

(** A header named [request-method] does not change [REQUEST_METHOD]. *)
Lemma headers_keep_fixed_keys_witness :
  let hs := [(b "request-method", b "DELETE")] in
  build_environ (example_scope []) example_request = Ok (example_environ [])
  ∧ build_environ (with_headers (example_scope []) hs) example_request
    = Ok (example_environ hs)
  ∧ ¬ header_key (u "REQUEST_METHOD")
  ∧ example_environ hs !! u "REQUEST_METHOD"
    = example_environ [] !! u "REQUEST_METHOD".
Proof.
  intros hs.
  assert (build_environ (example_scope []) example_request
          = Ok (example_environ [])) as Hb by (vm_compute; reflexivity).
  assert (build_environ (with_headers (example_scope []) hs) example_request
          = Ok (example_environ hs)) as Hb' by (vm_compute; reflexivity).
  assert (¬ header_key (u "REQUEST_METHOD")) as Hk
    by (intros [H|[H|[? H]]]; vm_compute in H; discriminate H).
  split; [exact Hb|]. split; [exact Hb'|]. split; [exact Hk|].
  exact (headers_keep_fixed_keys (example_scope []) example_request hs
           (example_environ []) (example_environ hs) (u "REQUEST_METHOD")
           Hb Hb' Hk).
Defined.

(** Of three spellings, only the lowercase one reaches [CONTENT_LENGTH]. *)
Lemma content_keys_from_exact_names_witness :
  let hs := [(b "content-length", b "5"); (b "Content-Length", b "7");
             (b "content_length", b "9"); (b "content-length", b "6")] in
  build_environ (example_scope hs) example_request = Ok (example_environ hs)
  ∧ example_environ hs !! u "CONTENT_LENGTH" = Some (VStr (u "5,6"))
  ∧ example_environ hs !! u "CONTENT_TYPE" = None.
Proof.
  intros hs.
  assert (build_environ (example_scope hs) example_request
          = Ok (example_environ hs)) as Hb by (vm_compute; reflexivity).
  split; [exact Hb|].
  exact (content_keys_from_exact_names (example_scope hs) example_request
           (example_environ hs) Hb).
Defined.

(** The key of [x-foo] holds "H" and so neither "-" nor a lowercase
    letter there. *)
Lemma corrected_name_charset_witness :
  72 ∈ corrected_name (b "x-foo")
  ∧ 72 ≠ 45 ∧ ¬ lowercase_letter 72.
Proof.
  assert (72 ∈ corrected_name (b "x-foo")) as Hin.
  { change (72 ∈ 72 :: u "TTP_X_FOO"). left. }
  split; [exact Hin|].
  exact (corrected_name_charset (b "x-foo") 72 Hin).
Defined.


(** The name [Content-Type] is stored in lowercase. *)
Lemma start_response_headers_witness :
  start_response new_instance (u "200 OK")
    [(u "Content-Type", u "text/HTML")] None
  = (Ok (),
     {| response_started := false;
        response_start :=
          Some (http_response_start 200 [(b "content-type", b "text/HTML")])
     |})
  ∧ ∃ n enc,
      Some (http_response_start 200 [(b "content-type", b "text/HTML")])
      = Some (http_response_start n enc)
      ∧ Forall2 (λ h e,
                   decode_latin1 e.1 = lower_cp <$> h.1
                   ∧ Forall (λ d, ¬ uppercase_letter (Byte.to_N d)) e.1
                   ∧ decode_latin1 e.2 = h.2)
                [(u "Content-Type", u "text/HTML")] enc.
Proof.
  assert (start_response new_instance (u "200 OK")
            [(u "Content-Type", u "text/HTML")] None
          = (Ok (),
             {| response_started := false;
                response_start :=
                  Some (http_response_start 200
                          [(b "content-type", b "text/HTML")]) |})) as E
    by (vm_compute; reflexivity).
  split; [exact E|].
  exact (start_response_headers new_instance (u "200 OK")
           [(u "Content-Type", u "text/HTML")] None _ E).
Defined.

(** A header value with e acute makes the call raise. *)
Lemma start_response_non_ascii_header_witness :
  response_started new_instance = false
  ∧ int (u "200") = Some 200%Z
  ∧ start_response new_instance (u "200 OK") [(u "X-Name", [233])] None
    = (Raise UnicodeEncodeError, new_instance).
Proof.
  assert (int (u "200") = Some 200%Z) as Hint by (vm_compute; reflexivity).
  split; [reflexivity|]. split; [exact Hint|].
  refine (start_response_non_ascii_header new_instance (u "200") (u "OK")
            200%Z [(u "X-Name", [233])] None
            eq_refl (or_introl eq_refl) _ Hint _).
  - apply split_space_None. vm_compute. reflexivity.
  - exists (u "X-Name"), [233], 233.
    split; [left|]. split; [lia|]. left. left.
Defined.

(** The run of [example_app] has sent messages, so it was accepted. *)
Lemma sent_implies_accepted_witness :
  sent (call example_app (example_scope []) example_request).2 ≠ []
  ∧ scope_type (example_scope []) = u "http"
  ∧ message_type example_request = u "http.request".
Proof.
  assert (sent (call example_app (example_scope []) example_request).2 ≠ [])
    as Hsent by (vm_compute; discriminate).
  destruct (sent_implies_accepted example_app (example_scope [])
              example_request Hsent) as (Ht & Hm & _).
  split; [exact Hsent|]. split; [exact Ht|exact Hm].
Defined.

(** The run of [example_app], transition by transition. *)
Lemma example_app_steps :
  steps (start_config (example_app (example_environ []))) example_final.
Proof.
  unfold steps.
  do 4 (eapply rtc_l; [vm_compute; reflexivity|]).
  apply rtc_refl.
Qed.

(** At the end of the run of [example_app] the stored start message is the
    first message sent. *)
Lemma sent_start_is_stored_witness :
  steps (start_config (example_app (example_environ []))) example_final
  ∧ response_start (inst (now example_final))
    = Some (http_response_start 200 []).
Proof.
  split; [exact example_app_steps|].
  destruct (sent_start_is_stored (example_app (example_environ []))
              example_final example_final example_app_steps (rtc_refl _ _))
    as (Hhead & _ & _).
  exact (Hhead (http_response_start 200 []) _ eq_refl).
Defined.

(** [replacing_app] answers 500, not 200. *)
Lemma second_call_replaces_witness :
  call replacing_app (example_scope []) example_request
  = (Ok (),
     {| inst := {| response_started := true;
                   response_start := Some (http_response_start 500 []) |};
        sent := [ http_response_start 500 [];
                  chunk_message (b "failed");
                  last_message ] |}).
Proof.
  assert (build_environ (example_scope []) example_request
          = Ok (example_environ [])) as Hb by (vm_compute; reflexivity).
  refine (second_call_replaces replacing_app (example_scope [])
            example_request (example_environ [])
            (u "200 OK") [(u "Content-Type", u "text/plain")] None
            (http_response_start 200 [(b "content-type", b "text/plain")])
            (u "500 Internal Server Error") []
            (sys_exc_info example_exception)
            (http_response_start 500 []) [b "failed"]
            eq_refl eq_refl Hb eq_refl _ _); vm_compute; reflexivity.
Defined.

(** [late_error_app] sends the start message and one chunk, then raises. *)
Lemma error_after_first_chunk_witness :
  call late_error_app (example_scope []) example_request
  = (Raise (Raised example_exception),
     {| inst := started_instance;
        sent := [ http_response_start 200 []; chunk_message (b "partial") ]
     |}).
Proof.
  assert (build_environ (example_scope []) example_request
          = Ok (example_environ [])) as Hb by (vm_compute; reflexivity).
  refine (error_after_first_chunk late_error_app (example_scope [])
            example_request (example_environ [])
            (u "200 OK") [] None (http_response_start 200 [])
            (b "partial") [] (u "500 Internal Server Error") []
            (sys_exc_info example_exception) Stop
            eq_refl eq_refl Hb eq_refl _); vm_compute; reflexivity.
Defined.

(** [raising_app] sends the start message and one chunk, then raises. *)
Lemma application_raises_witness :
  call raising_app (example_scope []) example_request
  = (Raise (Raised example_exception),
     {| inst := started_instance;
        sent := [ http_response_start 200 []; chunk_message (b "partial") ]
     |}).
Proof.
  assert (build_environ (example_scope []) example_request
          = Ok (example_environ [])) as Hb by (vm_compute; reflexivity).
  refine (application_raises raising_app (example_scope [])
            example_request (example_environ [])
            (u "200 OK") [] None (http_response_start 200 [])
            [b "partial"] (Raised example_exception)
            eq_refl eq_refl Hb eq_refl _); vm_compute; reflexivity.
Defined.

(** [late_start_app] fails at its first chunk. *)
Lemma chunk_before_start_response_witness :
  call late_start_app (example_scope []) example_request
  = (Raise (AttributeError
       "'WsgiToAsgiInstance' object has no attribute 'response_start'"),
     {| inst := {| response_started := true; response_start := None |};
        sent := [] |}).
Proof.
  assert (build_environ (example_scope []) example_request
          = Ok (example_environ [])) as Hb by (vm_compute; reflexivity).
  exact (chunk_before_start_response late_start_app (example_scope [])
           example_request (example_environ []) (b "early")
           (StartResponse (u "200 OK") [] None (propagate Stop))
           eq_refl eq_refl Hb eq_refl).
Defined.
